(** * Tsukamoto fuzzy controller of the ventilation system

    A shallow embedding of [tsukamoto_model.py] and [ventilation_system.py].

    Numbers.  The program computes in IEEE double precision through NumPy.
    Here every float is idealised as an exact rational ([Q]); Python [int]s
    are [Z].  Equality of floats becomes [Qeq] ([==]).  The decimal literals
    of the source are read as the rationals they denote ([0.2] is [2/10],
    [1e-6] is [1/1000000]).  In [Q], division by zero yields [0]; lemma
    [temp_denominators_nonzero] shows that no denominator of the program is
    zero on the parameter tuples it builds, so this never matters.

    Integers.  NumPy holds an integer input in an [int64] array, and the
    integer edges of the outer terms ([min - max^4], [max * 10]) meet it in
    [int64] arithmetic, which wraps or raises outside 64 bits; the model
    computes on unbounded integers.  [int64_safe] bounds the stored range
    and the inputs so that no such operation leaves 64 bits; the statements
    that depend on it carry it as a hypothesis.

    Dictionaries.  The three dicts [temp_mfs], [hum_mfs], [fan_mfs] are always
    keyed by the same five strings; the keys are the enumerated type [Term]
    and a dict is a [TermTable], one entry per key, in the source's order.

    Closures.  [set_trapmf] returns [lambda x: trapmf(np.array(x), *params)];
    such a closure is represented by the parameter tuple it captured.  The
    [fan_mfs] closures capture [self] and their parameter list and read
    [self.fan_speed] when they are called. *)

From Stdlib Require Import QArith Qminmax Qabs Qround ZArith List Lia Lqa Bool.
Import ListNotations.

Local Open Scope Q_scope.

(** ** Literals of the source *)

Definition eps : Q := 1 # 1000000.   (* 1e-6 *)
Definition tau : Q := 1 # 1000.      (* 1e-3 *)

(** ** NumPy primitives *)

(** [np.maximum] / [np.minimum] on one element. *)
Definition np_maximum (x y : Q) : Q := Qmax x y.
Definition np_minimum (x y : Q) : Q := Qmin x y.

(** Python's builtin [min(a, b)]: the first argument unless the second is
    strictly smaller. *)
Definition py_min (a b : Q) : Q :=
  match Qlt_le_dec b a with
  | left _ => b
  | right _ => a
  end.

(** [np.linspace(start, stop, num)]: [start + i * step] for [i < num], with
    [step = (stop - start) / (num - 1)].  (NumPy then overwrites the last
    sample with [stop]; in exact arithmetic it already equals [stop].) *)
Definition linspace (start stop : Q) (num : nat) : list Q :=
  let step := (stop - start) / inject_Z (Z.of_nat num - 1) in
  map (fun i => start + inject_Z (Z.of_nat i) * step) (seq 0 num).

(** [np.mean]. *)
Definition np_sum (l : list Q) : Q := fold_left Qplus l 0.
Definition np_mean (l : list Q) : Q := np_sum l / inject_Z (Z.of_nat (length l)).

(** [np.where(mask)[0]]: the indices at which the mask holds, increasing. *)
Fixpoint where_from (i : nat) (mask : list bool) : list nat :=
  match mask with
  | [] => []
  | m :: mask' =>
      if m then i :: where_from (S i) mask' else where_from (S i) mask'
  end.

Definition np_where (mask : list bool) : list nat := where_from 0 mask.

(** ** tsukamoto_model.py *)

(** The parameter list [[a, b, c, d]] unpacked by [*params]. *)
Record Params : Type := mkParams { pa : Q; pb : Q; pc : Q; pd : Q }.

(** [trapmf(x, a, b, c, d)] on one element. *)
Definition trapmf (x a b c d : Q) : Q :=
  np_maximum 0
    (np_minimum (np_minimum ((x - a) / (b - a + eps)) 1)
                ((d - x) / (d - c + eps))).

(** [trimf(x, a, b, c)] on one element. *)
Definition trimf (x a b c : Q) : Q :=
  np_maximum 0
    (np_minimum ((x - a) / (b - a + eps)) ((c - x) / (c - b + eps))).

(** [trapmf(x, *params)]. *)
Definition trapmf_p (x : Q) (p : Params) : Q :=
  trapmf x (pa p) (pb p) (pc p) (pd p).

(** [trapmf] applied to an array, elementwise. *)
Definition trapmf_arr (xs : list Q) (p : Params) : list Q :=
  map (fun x => trapmf_p x p) xs.

(** ** ventilation_system.py: the data *)

(** The keys ['very_low'], ['low'], ['medium'], ['high'], ['very_high']. *)
Inductive Term : Type := very_low | low | medium | high | very_high.

(** A dict over the five keys. *)
Record TermTable : Type := mkTable {
  t_very_low : Params;
  t_low : Params;
  t_medium : Params;
  t_high : Params;
  t_very_high : Params
}.

Definition lookup (tbl : TermTable) (k : Term) : Params :=
  match k with
  | very_low => t_very_low tbl
  | low => t_low tbl
  | medium => t_medium tbl
  | high => t_high tbl
  | very_high => t_very_high tbl
  end.

(** A range tuple [(start, stop, step)] of Python ints. *)
Definition Range : Type := (Z * Z * Z)%type.
Definition range_lo (r : Range) : Z := fst (fst r).   (* r[0] *)
Definition range_hi (r : Range) : Z := snd (fst r).   (* r[1] *)

Definition Rule : Type := (Term * Term * Term)%type.

(** The attributes of a [VentilationSystem] object. *)
Record VentilationSystem : Type := mkVS {
  temp_range : Range;
  hum_range : Range;
  fan_range : Range;
  x1 : Z;
  x2 : Z;
  res : Q;
  temperature : list Q;
  humidity : list Q;
  fan_speed : list Q;
  temp_mfs : TermTable;
  hum_mfs : TermTable;
  fan_mfs : TermTable;
  rules : list Rule
}.

Definition int_params (a b c d : Z) : Params :=
  mkParams (inject_Z a) (inject_Z b) (inject_Z c) (inject_Z d).

(** ** set_default_mfs *)

(** The parameter lists of [self.temp_mfs], from [tr = self.temp_range]. *)
Definition temp_table (tr : Range) : TermTable :=
  let temp_min := range_lo tr in
  let temp_max := range_hi tr in
  let temp_span := (temp_max - temp_min)%Z in
  let lo := inject_Z temp_min in
  let span := inject_Z temp_span in
  mkTable
    (mkParams
       (inject_Z (if (temp_max >? 10)%Z
                  then temp_min - temp_max ^ 4
                  else temp_min - (Z.abs temp_max + 10) ^ 4)%Z)
       lo
       (lo + (2 # 10) * span)
       (lo + (3 # 10) * span))
    (mkParams
       (lo + (2 # 10) * span)
       (lo + (3 # 10) * span)
       (lo + (4 # 10) * span)
       (lo + (5 # 10) * span))
    (mkParams
       (lo + (4 # 10) * span)
       (lo + (5 # 10) * span)
       (lo + (6 # 10) * span)
       (lo + (7 # 10) * span))
    (mkParams
       (lo + (6 # 10) * span)
       (lo + (7 # 10) * span)
       (lo + (8 # 10) * span)
       (lo + (9 # 10) * span))
    (mkParams
       (lo + (8 # 10) * span)
       (lo + (9 # 10) * span)
       (inject_Z temp_max)
       (inject_Z (temp_max * 10))).

(** The parameter lists of [self.hum_mfs]. *)
Definition hum_table : TermTable :=
  mkTable (int_params (-100) 0 20 30)
          (int_params 20 30 40 50)
          (int_params 40 50 60 70)
          (int_params 60 70 80 90)
          (int_params 80 90 100 1000).

(** The parameter lists captured by the lambdas of [self.fan_mfs]. *)
Definition fan_table : TermTable :=
  mkTable (int_params (-100) 0 20 30)
          (int_params 20 30 40 50)
          (int_params 40 50 60 70)
          (int_params 60 70 80 90)
          (int_params 80 90 100 1000).

Definition set_default_mfs (s : VentilationSystem) : VentilationSystem :=
  mkVS (temp_range s) (hum_range s) (fan_range s) (x1 s) (x2 s) (res s)
       (temperature s) (humidity s) (fan_speed s)
       (temp_table (temp_range s)) hum_table fan_table
       (rules s).

(** [get_fan_params(term)]: the table the plot of the fan curves reads. *)
Definition get_fan_params (term : Term) : Params :=
  lookup (mkTable (int_params (-100) 0 20 30)
                  (int_params 20 30 40 50)
                  (int_params 40 50 60 70)
                  (int_params 60 70 80 90)
                  (int_params 80 90 100 1000)) term.

(** ** defuzz_single *)

(** The boolean array [mf_values >= mu_target - 1e-3]. *)
Definition ge_mask (mf_values : list Q) (mu_target : Q) : list bool :=
  map (fun v => Qle_bool (mu_target - tau) v) mf_values.

Definition defuzz_single (s : VentilationSystem) (mu_target : Q)
    (params : Params) (ascending : bool) : Q :=
  let z_values := fan_speed s in
  let mf_values := trapmf_arr z_values params in
  if ascending then
    let idx := np_where (ge_mask mf_values mu_target) in
    if (length idx =? 0)%nat then np_mean z_values
    else nth (hd 0%nat idx) z_values 0                 (* z_values[idx[0]] *)
  else
    let idx := np_where (ge_mask mf_values mu_target) in
    if (length idx =? 0)%nat then np_mean z_values
    else nth (last idx 0%nat) z_values 0.              (* z_values[idx[-1]] *)

(** Calling [self.temp_mfs[term]], [self.hum_mfs[term]] on a one-element
    array and [self.fan_mfs[term]] on a level. *)
Definition call_temp (s : VentilationSystem) (term : Term) (x : Q) : Q :=
  trapmf_p x (lookup (temp_mfs s) term).

Definition call_hum (s : VentilationSystem) (term : Term) (x : Q) : Q :=
  trapmf_p x (lookup (hum_mfs s) term).

Definition call_fan (s : VentilationSystem) (term : Term) (mu : Q) : Q :=
  defuzz_single s mu (lookup (fan_mfs s) term) true.

(** ** set_rules *)

Definition rule_table : list Rule :=
  [ (very_low, very_low, very_low);
    (very_low, low, very_low);
    (very_low, medium, low);
    (very_low, high, high);
    (very_low, very_high, high);

    (low, very_low, very_low);
    (low, low, low);
    (low, medium, low);
    (low, high, medium);
    (low, very_high, high);

    (medium, very_low, low);
    (medium, low, low);
    (medium, medium, medium);
    (medium, high, high);
    (medium, very_high, high);

    (high, very_low, high);
    (high, low, high);
    (high, medium, high);
    (high, high, very_high);
    (high, very_high, very_high);

    (very_high, very_low, very_high);
    (very_high, low, very_high);
    (very_high, medium, very_high);
    (very_high, high, very_high);
    (very_high, very_high, very_high) ].

Definition set_rules (s : VentilationSystem) : VentilationSystem :=
  mkVS (temp_range s) (hum_range s) (fan_range s) (x1 s) (x2 s) (res s)
       (temperature s) (humidity s) (fan_speed s)
       (temp_mfs s) (hum_mfs s) (fan_mfs s)
       rule_table.

(** ** __init__ *)

Definition default_range : Range := (0, 101, 1)%Z.

(** The dicts start as [{}] and the rule list as [[]]; [set_default_mfs] and
    [set_rules] replace them before anything reads them, so the placeholder
    table below is never looked up. *)
Definition empty_table : TermTable :=
  let z := mkParams 0 0 0 0 in mkTable z z z z z.

Definition init (temp_range hum_range fan_range : Range) : VentilationSystem :=
  let s0 :=
    mkVS temp_range hum_range fan_range
         (range_lo temp_range) (range_hi temp_range - 1)%Z 0
         (linspace (inject_Z (range_lo temp_range))
                   (inject_Z (range_hi temp_range)) 1000)
         (linspace (inject_Z (range_lo hum_range))
                   (inject_Z (range_hi hum_range)) 1000)
         (linspace (inject_Z (range_lo fan_range))
                   (inject_Z (range_hi fan_range)) 1000)
         empty_table empty_table empty_table [] in
  set_rules (set_default_mfs s0).

(** [VentilationSystem()]. *)
Definition default_system : VentilationSystem :=
  init default_range default_range default_range.

(** ** evaluate *)

(** One iteration of the loop over [self.rules], on the pair
    [(numerator, denominator)]. *)
Definition rule_step (s : VentilationSystem) (temp_val hum_val : Q)
    (acc : Q * Q) (r : Rule) : Q * Q :=
  let '(numerator, denominator) := acc in
  let '(temp_term, hum_term, fan_term) := r in
  let mu_temp := call_temp s temp_term temp_val in
  let mu_hum := call_hum s hum_term hum_val in
  let alpha := py_min mu_temp mu_hum in
  let z := call_fan s fan_term alpha in
  (numerator + alpha * z, denominator + alpha).

Definition evaluate (s : VentilationSystem) (temp_val hum_val : Q) : Q :=
  let '(numerator, denominator) :=
    fold_left (rule_step s temp_val hum_val) (rules s) (0, 0) in
  if negb (Qeq_bool denominator 0) then numerator / denominator else 0.

(** ** is_very_high *)

(** Python's [int(x)] on a float: truncation toward zero. *)
Definition py_int (q : Q) : Z := Z.quot (Qnum q) (Zpos (Qden q)).

Definition set_res (s : VentilationSystem) (r : Q) : VentilationSystem :=
  mkVS (temp_range s) (hum_range s) (fan_range s) (x1 s) (x2 s) r
       (temperature s) (humidity s) (fan_speed s)
       (temp_mfs s) (hum_mfs s) (fan_mfs s) (rules s).

(** The bound [int(tr[0] + 0.9 * (tr[1] - tr[0]))] of the comparison. *)
Definition very_high_bound (s : VentilationSystem) : Z :=
  let tr := temp_range s in
  py_int (inject_Z (range_lo tr)
          + (9 # 10) * inject_Z (range_hi tr - range_lo tr)).

Definition is_very_high (s : VentilationSystem) (temp : Z) : VentilationSystem :=
  if (temp >=? very_high_bound s)%Z then set_res s 100 else s.

(** ** The console *)

(** One line of standard input, as [split] and [int] see it: either every
    whitespace-separated token is an integer literal ([Ints]) or some token
    is not ([Garbage]).  A line of two integers too large for the float
    conversions of [np.linspace] and [set_default_mfs] is an [Overflow]
    line: the body of the [try] of [input_temp_range] raises
    [OverflowError] on it, in [np.linspace] ([universe_built = false]) or
    later in [set_default_mfs] ([universe_built = true]); an [Ints] line of
    two integers is one on which that body completes.  The end of the list
    is the end of the input, where [input()] raises [EOFError]. *)
Inductive Line : Type :=
  | Garbage
  | Ints (l : list Z)
  | Overflow (a b : Z) (universe_built : bool).

Definition Console : Type := list Line.

Declare Scope opt_scope.
Notation "' p <- e ;; k" :=
  (match e with Some p => k | None => None end)
  (at level 61, p pattern, e at next level, right associativity) : opt_scope.
Local Open Scope opt_scope.

(** The body of the [try] of [input_temp_range], once both integers are
    parsed. *)
Definition set_temp_range (s : VentilationSystem) (a b : Z) : VentilationSystem :=
  let tr : Range := (a, b + 1, 1)%Z in
  set_default_mfs
    (mkVS tr (hum_range s) (fan_range s) a b (res s)
          (linspace (inject_Z (range_lo tr)) (inject_Z (range_hi tr)) 1000)
          (humidity s) (fan_speed s)
          (temp_mfs s) (hum_mfs s) (fan_mfs s) (rules s)).

(** What the [try] of [input_temp_range] has assigned when it raises
    [OverflowError]: [x1], [x2] and [temp_range], and the universe when
    [np.linspace] had returned; the dicts are assigned only at the end of
    [set_default_mfs] and keep their old closures. *)
Definition assign_until_overflow (s : VentilationSystem) (a b : Z)
    (universe_built : bool) : VentilationSystem :=
  let tr : Range := (a, b + 1, 1)%Z in
  mkVS tr (hum_range s) (fan_range s) a b (res s)
       (if universe_built
        then linspace (inject_Z (range_lo tr)) (inject_Z (range_hi tr)) 1000
        else temperature s)
       (humidity s) (fan_speed s)
       (temp_mfs s) (hum_mfs s) (fan_mfs s) (rules s).

(** [input_temp_range]: a line that is not exactly two integers raises inside
    the [try] before anything is assigned, and the loop asks again; on an
    [Overflow] line the [try] raises after its first assignments, and the
    loop asks again from that state.  At the end of the input the bare
    [except] also catches [EOFError] and the loop never ends: [None]. *)
Fixpoint input_temp_range (s : VentilationSystem) (stdin : Console)
    : option (VentilationSystem * Console) :=
  match stdin with
  | [] => None
  | Ints [a; b] :: rest => Some (set_temp_range s a b, rest)
  | Overflow a b universe_built :: rest =>
      input_temp_range (assign_until_overflow s a b universe_built) rest
  | _ :: rest => input_temp_range s rest
  end.

(** [input_temp] and [input_hum] on the line they read: [None] is the
    [ValueError]. *)
Definition input_temp (s : VentilationSystem) (line : Line) : option Z :=
  match line with
  | Ints [temp] =>
      if negb ((x1 s <=? temp)%Z && (temp <=? x2 s)%Z) then None else Some temp
  | _ => None
  end.

Definition input_hum (line : Line) : option Z :=
  match line with
  | Ints [hum] =>
      if negb ((0 <=? hum)%Z && (hum <=? 100)%Z) then None else Some hum
  | _ => None
  end.

(** [while True: try: v = read(); break; except Exception: ...]. *)
Fixpoint ask {A : Type} (read : Line -> option A) (stdin : Console)
    : option (A * Console) :=
  match stdin with
  | [] => None
  | line :: rest =>
      match read line with
      | Some v => Some (v, rest)
      | None => ask read rest
      end
  end.

Definition input_values (s : VentilationSystem) (stdin : Console)
    : option (Z * Z * Console) :=
  '(temp, rest) <- ask (input_temp s) stdin ;;
  '(hum, rest') <- ask input_hum rest ;;
  Some (temp, hum, rest').

(** [run]; the printing of [hello] and [show_res] and the plot of
    [visualize] read the state and do not change it.  [self.res] at the end
    is the value [show_res] reports. *)
Definition run (s : VentilationSystem) (stdin : Console)
    : option (VentilationSystem * Console) :=
  '(s1, rest) <- input_temp_range s stdin ;;
  '(temp, hum, rest') <- input_values s1 rest ;;
  let s2 := set_res s1 (evaluate s1 (inject_Z temp) (inject_Z hum)) in
  let s3 := is_very_high s2 temp in
  Some (s3, rest').

(** ** Objects the program can hold *)

(** A system built by the constructor with the default humidity and fan
    ranges, then reconfigured any number of times. *)
Inductive Constructed : VentilationSystem -> Prop :=
  | Constructed_init (tr : Range) :
      Constructed (init tr default_range default_range)
  | Constructed_range (s : VentilationSystem) (a b : Z) :
      Constructed s -> Constructed (set_temp_range s a b)
  | Constructed_res (s : VentilationSystem) (r : Q) :
      Constructed s -> Constructed (set_res s r).

(** ** The inference as the specification words it *)

(** Firing strength of a rule: the minimum of the two membership degrees. *)
Definition firing_strength (s : VentilationSystem) (t h : Q) (r : Rule) : Q :=
  let '(t_term, h_term, _) := r in
  Qmin (trapmf_p t (lookup (temp_mfs s) t_term))
       (trapmf_p h (lookup (hum_mfs s) h_term)).

(** Inverse lookup: the first sample of the universe, in increasing order,
    whose membership reaches [alpha - tau]; the mean of the universe when
    there is none. *)
Definition invert (universe : list Q) (p : Params) (alpha : Q) : Q :=
  match find (fun z => Qle_bool (alpha - tau) (trapmf_p z p)) universe with
  | Some z => z
  | None => np_mean universe
  end.

Definition crisp (s : VentilationSystem) (t h : Q) (r : Rule) : Q :=
  invert (fan_speed s) (lookup fan_table (snd r)) (firing_strength s t h r).

Fixpoint Qsum (l : list Q) : Q :=
  match l with
  | [] => 0
  | q :: l' => q + Qsum l'
  end.

Definition spec_numerator (s : VentilationSystem) (t h : Q) : Q :=
  Qsum (map (fun r => firing_strength s t h r * crisp s t h r) rule_table).

Definition spec_denominator (s : VentilationSystem) (t h : Q) : Q :=
  Qsum (map (firing_strength s t h) rule_table).

Definition spec_evaluate (s : VentilationSystem) (t h : Q) : Q :=
  if Qeq_bool (spec_denominator s t h) 0 then 0
  else spec_numerator s t h / spec_denominator s t h.

(** ** The temperature layout as the specification words it *)

(** The point at fraction [f] of the span of [[lo, hi]]. *)
Definition offset_point (lo hi f : Q) : Q := lo + f * (hi - lo).

(** Outer edges of the two shoulders. *)
Definition left_shoulder_edge (lo hi : Q) : Q :=
  if Qlt_le_dec 10 hi then lo - hi ^ 4 else lo - (Qabs hi + 10) ^ 4.

Definition right_shoulder_edge (hi : Q) : Q := hi * 10.

(** Componentwise equality of two parameter tuples, as numbers. *)
Definition Params_eq (p q : Params) : Prop :=
  pa p == pa q /\ pb p == pb q /\ pc p == pc q /\ pd p == pd q.

(** The universe [np.linspace(0, 101, 1000)] of the default ranges. *)
Definition default_universe : list Q := linspace 0 101 1000.

(** What every constructed object satisfies. *)
Record Wf (s : VentilationSystem) : Prop := mkWf {
  wf_fan_speed : fan_speed s = default_universe;
  wf_humidity : humidity s = default_universe;
  wf_temperature :
    temperature s = linspace (inject_Z (range_lo (temp_range s)))
                             (inject_Z (range_hi (temp_range s))) 1000;
  wf_temp_mfs : temp_mfs s = temp_table (temp_range s);
  wf_hum_mfs : hum_mfs s = hum_table;
  wf_fan_mfs : fan_mfs s = fan_table;
  wf_rules : rules s = rule_table
}.

(** For each fan term, the index of a sample of the default universe that
    lies on the term's plateau. *)
Definition plateau_index (term : Term) : nat :=
  match term with
  | very_low => 1
  | low => 297
  | medium => 495
  | high => 693
  | very_high => 891
  end.

(** Bounds within which the [int64] arithmetic NumPy applies to an integer
    input neither wraps nor raises: the inputs, the stored bounds and the
    two integer outer edges [min - max^4] (or [min - (|max| + 10)^4]) and
    [max * 10] all lie within [2^61] of zero. *)
Definition two61 : Z := (2 ^ 61)%Z.

Definition int64_safe (s : VentilationSystem) (t h : Q) : Prop :=
  let lo := range_lo (temp_range s) in
  let hi := range_hi (temp_range s) in
  Qabs t <= inject_Z two61 /\ Qabs h <= inject_Z two61 /\
  (Z.abs lo <= two61)%Z /\ (Z.abs (hi * 10) <= two61)%Z /\
  (Z.abs (if (hi >? 10)%Z then lo - hi ^ 4
          else lo - (Z.abs hi + 10) ^ 4) <= two61)%Z.

(** A line [input_temp_range] accepts: exactly two integers. *)
Definition is_range_line (l : Line) : bool :=
  match l with
  | Ints [_; _] => true
  | _ => false
  end.

(** * Properties *)

(** ** Elementary facts on the primitives *)

Lemma py_min_Qmin (a b : Q) : py_min a b = Qmin a b.
Proof.
  unfold py_min, Qmin, GenericMinMax.gmin.
  destruct (Qlt_le_dec b a) as [H|H].
  - apply Qgt_alt in H. now rewrite H.
  - destruct (a ?= b) eqn:E; try reflexivity.
    apply Qgt_alt in E. exfalso. lra.
Qed.

Lemma eps_pos : 0 < eps.
Proof. reflexivity. Qed.

Lemma Qdiv_mult_cancel (n d : Q) : ~ d == 0 -> n / d * d == n.
Proof. intros Hd. field. exact Hd. Qed.

Lemma Qdiv_le_mono (n m d : Q) : 0 < d -> n <= m -> n / d <= m / d.
Proof.
  intros Hd Hnm. apply Qle_shift_div_l; [exact Hd|].
  rewrite Qdiv_mult_cancel; [exact Hnm | lra].
Qed.

Lemma Qdiv_nonpos (n d : Q) : 0 < d -> n <= 0 -> n / d <= 0.
Proof. intros Hd Hn. apply Qle_shift_div_r; [exact Hd | lra]. Qed.

Lemma Qdiv_ge_1 (n d : Q) : 0 < d -> d <= n -> 1 <= n / d.
Proof. intros Hd Hn. apply Qle_shift_div_l; [exact Hd | lra]. Qed.

(** [w / (w + eps)] is what the perturbed quotient is worth at the knee of
    an edge of width [w]; it grows with [w]. *)
Lemma knee_value (w : Q) : 0 <= w -> w / (w + eps) == 1 - eps / (w + eps).
Proof. intros Hw. pose proof eps_pos. field. lra. Qed.

Lemma knee_mono (w w' : Q) :
  0 <= w -> w <= w' -> eps / (w' + eps) <= eps / (w + eps).
Proof.
  intros Hw Hww. pose proof eps_pos as He.
  apply Qle_shift_div_r; [lra|].
  assert (Hq : 0 <= eps / (w + eps)) by (apply Qle_shift_div_l; lra).
  assert (Hc : eps / (w + eps) * (w + eps) == eps)
    by (apply Qdiv_mult_cancel; lra).
  assert (Hp : 0 <= eps / (w + eps) * (w' - w))
    by (apply Qmult_le_0_compat; lra).
  setoid_replace (eps / (w + eps) * (w' + eps))
    with (eps / (w + eps) * (w + eps) + eps / (w + eps) * (w' - w)) by ring.
  lra.
Qed.

Section Trapezoid.

Variables a b c d : Q.

Lemma trapmf_nonneg (x : Q) : 0 <= trapmf x a b c d.
Proof. unfold trapmf, np_maximum. apply Q.le_max_l. Qed.

Lemma trapmf_le_1 (x : Q) : trapmf x a b c d <= 1.
Proof.
  unfold trapmf, np_maximum, np_minimum.
  apply Q.max_lub; [lra|].
  eapply Qle_trans; [apply Q.le_min_l|]. apply Q.le_min_r.
Qed.

(** The value is whatever lies below both quotients and [1], clipped at 0. *)
Lemma trapmf_ge (x m : Q) :
  m <= (x - a) / (b - a + eps) -> m <= 1 -> m <= (d - x) / (d - c + eps) ->
  m <= trapmf x a b c d.
Proof.
  intros H1 H2 H3. unfold trapmf, np_maximum, np_minimum.
  eapply Qle_trans; [|apply Q.le_max_r].
  repeat apply Q.min_glb; assumption.
Qed.

Lemma trapmf_zero_of_nonpos (x : Q) :
  (x - a) / (b - a + eps) <= 0 \/ (d - x) / (d - c + eps) <= 0 ->
  trapmf x a b c d == 0.
Proof.
  intros H. apply Qle_antisym; [|apply trapmf_nonneg].
  unfold trapmf, np_maximum, np_minimum.
  apply Q.max_lub; [lra|].
  destruct H as [H|H].
  - eapply Qle_trans; [apply Q.le_min_l|].
    eapply Qle_trans; [apply Q.le_min_l|]. exact H.
  - eapply Qle_trans; [apply Q.le_min_r|]. exact H.
Qed.

Hypothesis Hab : a <= b.
Hypothesis Hcd : c <= d.

Lemma trapmf_left_foot (x : Q) : x <= a -> trapmf x a b c d == 0.
Proof.
  intros Hx. pose proof eps_pos. apply trapmf_zero_of_nonpos. left.
  apply Qdiv_nonpos; lra.
Qed.

Lemma trapmf_right_foot (x : Q) : d <= x -> trapmf x a b c d == 0.
Proof.
  intros Hx. pose proof eps_pos. apply trapmf_zero_of_nonpos. right.
  apply Qdiv_nonpos; lra.
Qed.

Lemma trapmf_core (x : Q) :
  b + eps <= x -> x <= c - eps -> trapmf x a b c d == 1.
Proof.
  intros Hl Hr. pose proof eps_pos.
  apply Qle_antisym; [apply trapmf_le_1|].
  apply trapmf_ge; [|lra|]; apply Qdiv_ge_1; lra.
Qed.

Lemma trapmf_plateau_lower (x : Q) :
  b <= x -> x <= c ->
  Qmin ((b - a) / (b - a + eps)) ((d - c) / (d - c + eps))
    <= trapmf x a b c d.
Proof.
  intros Hl Hr. pose proof eps_pos.
  apply trapmf_ge.
  - eapply Qle_trans; [apply Q.le_min_l|]. apply Qdiv_le_mono; lra.
  - eapply Qle_trans; [apply Q.le_min_l|].
    apply Qle_shift_div_r; lra.
  - eapply Qle_trans; [apply Q.le_min_r|]. apply Qdiv_le_mono; lra.
Qed.

End Trapezoid.

(** ** The trapezoid: plateau and feet *)

(** C6 as stated fails: with a rising edge as narrow as [eps] the value at
    the start of the plateau, [x = b], is one half, far more than [1e-6]
    away from [1]. *)
Lemma trapmf_plateau_cex :
  (0 <= eps /\ eps <= 1 /\ 1 <= 2 /\ 0 < eps /\ 1 < 2) /\
  eps <= eps <= 1 /\
  trapmf eps 0 eps 1 2 == 1 # 2 /\
  ~ 1 - eps <= trapmf eps 0 eps 1 2.
Proof.
  split; [repeat split; vm_compute; discriminate|].
  split; [split; vm_compute; discriminate|].
  split; [reflexivity|].
  intros H. vm_compute in H. apply H. reflexivity.
Qed.

(** C6, amended.  For parameters [a <= b <= c <= d] with [a < b] and [c < d], the
    trapezoid is exactly [0] at every [x <= a] and every [x >= d]; on the
    plateau [[b, c]] it is at most [1] and misses [1] by no more than
    [eps / (w + eps)], where [w] is the width of the narrower edge: the
    whole effect of adding [eps] to the two denominators.  It is exactly [1]
    on [[b + eps, c - eps]], and within [eps] of [1] on all of [[b, c]] when
    both edges are at least [1] wide. *)
Theorem trapmf_plateau_and_feet (a b c d x : Q) :
  a <= b -> b <= c -> c <= d -> a < b -> c < d ->
  (x <= a \/ d <= x -> trapmf x a b c d == 0) /\
  (b <= x <= c ->
     1 - eps / (Qmin (b - a) (d - c) + eps) <= trapmf x a b c d <= 1) /\
  (b + eps <= x <= c - eps -> trapmf x a b c d == 1) /\
  (b <= x <= c -> 1 <= b - a -> 1 <= d - c -> 1 - eps <= trapmf x a b c d).
Proof.
  intros Hab Hbc Hcd Hab' Hcd'. pose proof eps_pos as He.
  assert (Hplateau : b <= x <= c ->
            1 - eps / (Qmin (b - a) (d - c) + eps) <= trapmf x a b c d).
  { intros [Hl Hr].
    eapply Qle_trans; [|apply trapmf_plateau_lower; assumption].
    apply Q.min_glb.
    - rewrite knee_value by lra.
      assert (eps / (b - a + eps) <= eps / (Qmin (b - a) (d - c) + eps)).
      { apply knee_mono; [|apply Q.le_min_l]. apply Q.min_glb; lra. }
      lra.
    - rewrite knee_value by lra.
      assert (eps / (d - c + eps) <= eps / (Qmin (b - a) (d - c) + eps)).
      { apply knee_mono; [|apply Q.le_min_r]. apply Q.min_glb; lra. }
      lra. }
  repeat split.
  - intros [Hx|Hx];
      [apply trapmf_left_foot | apply trapmf_right_foot]; assumption.
  - apply Hplateau; assumption.
  - apply trapmf_le_1.
  - intros [Hl Hr]. apply trapmf_core; assumption.
  - intros Hx Hw1 Hw2.
    eapply Qle_trans; [|apply Hplateau; assumption].
    assert (eps / (Qmin (b - a) (d - c) + eps) <= eps / (1 + eps)).
    { apply knee_mono; [lra|]. apply Q.min_glb; assumption. }
    assert (eps / (1 + eps) <= eps) by (vm_compute; discriminate).
    lra.
Qed.

Lemma trapmf_plateau_and_feet_witness :
  (0 <= 10 /\ 10 <= 20 /\ 20 <= 30 /\ 0 < 10 /\ 20 < 30) /\
  (10 + eps <= 15 <= 20 - eps -> trapmf 15 0 10 20 30 == 1).
Proof.
  split.
  - repeat split; vm_compute; discriminate.
  - apply (trapmf_plateau_and_feet 0 10 20 30 15);
      first [ reflexivity | vm_compute; discriminate ].
Defined.

(** At a knee of a narrow edge the perturbation is large: with an edge as
    wide as [eps] the value at [x = b] is one half. *)
Example trapmf_narrow_edge : trapmf eps 0 eps 1 2 == 1 # 2.
Proof. reflexivity. Qed.

(** ** The temperature layout *)

Lemma inject_Z_pow4 (z : Z) : inject_Z (z ^ 4) == inject_Z z ^ 4.
Proof.
  replace (z ^ 4)%Z with (z * z * z * z)%Z by ring.
  rewrite !inject_Z_mult. simpl. ring.
Qed.

Lemma inject_Z_minus' (x y : Z) : inject_Z (x - y) == inject_Z x - inject_Z y.
Proof. unfold Z.sub. rewrite inject_Z_plus, inject_Z_opp. ring. Qed.

Lemma inject_Z_abs (z : Z) : inject_Z (Z.abs z) == Qabs (inject_Z z).
Proof. destruct z; reflexivity. Qed.

Lemma left_shoulder_edge_Z (tmin tmax : Z) :
  inject_Z (if (tmax >? 10)%Z
            then tmin - tmax ^ 4
            else tmin - (Z.abs tmax + 10) ^ 4)%Z
  == left_shoulder_edge (inject_Z tmin) (inject_Z tmax).
Proof.
  unfold left_shoulder_edge.
  destruct (Qlt_le_dec 10 (inject_Z tmax)) as [H|H].
  - change 10 with (inject_Z 10) in H. rewrite <- Zlt_Qlt in H.
    apply Z.gt_lt_iff, Z.gtb_gt in H. rewrite H.
    rewrite inject_Z_minus', inject_Z_pow4. reflexivity.
  - change 10 with (inject_Z 10) in H. rewrite <- Zle_Qle in H.
    destruct (tmax >? 10)%Z eqn:E; [apply Z.gtb_gt in E; lia|].
    rewrite inject_Z_minus', inject_Z_pow4, inject_Z_plus, inject_Z_abs.
    reflexivity.
Qed.

(** C5.  [set_default_mfs] lays the five temperature terms on the stored
    range [(min, max)]: the inner edges sit at the fractions 0.2, 0.3, ...,
    0.9 of the span, each term's falling edge being the next term's rising
    edge; [very_low] starts at [min - max^4] when [max > 10] and at
    [min - (|max| + 10)^4] otherwise, with its plateau from [min];
    [very_high] has its plateau up to [max] and ends at [max * 10]. *)
Theorem temp_terms_layout (s : VentilationSystem) :
  let lo := inject_Z (range_lo (temp_range s)) in
  let hi := inject_Z (range_hi (temp_range s)) in
  let at_ := offset_point lo hi in
  let T := temp_mfs (set_default_mfs s) in
  Params_eq (lookup T very_low)
    (mkParams (left_shoulder_edge lo hi) lo (at_ (2 # 10)) (at_ (3 # 10))) /\
  Params_eq (lookup T low)
    (mkParams (at_ (2 # 10)) (at_ (3 # 10)) (at_ (4 # 10)) (at_ (5 # 10))) /\
  Params_eq (lookup T medium)
    (mkParams (at_ (4 # 10)) (at_ (5 # 10)) (at_ (6 # 10)) (at_ (7 # 10))) /\
  Params_eq (lookup T high)
    (mkParams (at_ (6 # 10)) (at_ (7 # 10)) (at_ (8 # 10)) (at_ (9 # 10))) /\
  Params_eq (lookup T very_high)
    (mkParams (at_ (8 # 10)) (at_ (9 # 10)) hi (right_shoulder_edge hi)).
Proof.
  destruct s as [[[tmin tmax] step] hr fr a1 a2 r0 ts hs fs tm hm fm rs].
  cbn [temp_range set_default_mfs temp_mfs range_lo range_hi fst snd].
  unfold Params_eq, temp_table, offset_point, right_shoulder_edge.
  cbn [lookup t_very_low t_low t_medium t_high t_very_high pa pb pc pd
       range_lo range_hi fst snd].
  rewrite left_shoulder_edge_Z, inject_Z_minus', inject_Z_mult.
  change (inject_Z 10) with 10.
  repeat split; reflexivity.
Qed.

(** ** No division by zero *)

Lemma Zpow4_nonneg (z : Z) : (0 <= z ^ 4)%Z.
Proof. replace (z ^ 4)%Z with ((z * z) * (z * z))%Z by ring. nia. Qed.

(** The denominators [b - a + 1e-6] and [d - c + 1e-6] of [trapmf] are not
    zero on any tuple [set_default_mfs] builds, whatever the integer range,
    so the quotients of the program are ordinary quotients. *)
Lemma temp_denominators_nonzero (tr : Range) (term : Term) :
  let p := lookup (temp_table tr) term in
  ~ pb p - pa p + eps == 0 /\ ~ pd p - pc p + eps == 0.
Proof.
  destruct tr as [[lo hi] step].
  pose proof (Zpow4_nonneg hi) as H4.
  pose proof (Zpow4_nonneg (Z.abs hi + 10)) as H4'.
  destruct term; cbv zeta; unfold temp_table;
    cbn [lookup t_very_low t_low t_medium t_high t_very_high pa pb pc pd
         range_lo range_hi fst snd];
    try destruct (hi >? 10)%Z;
    split; unfold Qeq, eps; cbn [Qnum Qden Qplus Qminus Qopp Qmult inject_Z];
    lia.
Qed.

Lemma fixed_denominators_nonzero (term : Term) :
  let p := lookup hum_table term in
  let q := lookup fan_table term in
  (~ pb p - pa p + eps == 0 /\ ~ pd p - pc p + eps == 0) /\
  (~ pb q - pa q + eps == 0 /\ ~ pd q - pc q + eps == 0).
Proof. destruct term; repeat split; vm_compute; discriminate. Qed.

(** ** Arrays *)

Lemma linspace_length (a b : Q) (n : nat) : length (linspace a b n) = n.
Proof. unfold linspace. now rewrite length_map, length_seq. Qed.

Lemma nth_linspace (a b : Q) (n i : nat) :
  (i < n)%nat ->
  nth i (linspace a b n) 0
  = a + inject_Z (Z.of_nat i) * ((b - a) / inject_Z (Z.of_nat n - 1)).
Proof.
  intros Hi. unfold linspace.
  set (f := fun i => a + inject_Z (Z.of_nat i) * _).
  rewrite (nth_indep _ 0 (f 0%nat)) by now rewrite length_map, length_seq.
  rewrite map_nth, seq_nth by exact Hi. reflexivity.
Qed.

Section Where.

Context {A : Type} (f : A -> bool) (d : A).

Lemma where_from_nil (zs : list A) (k : nat) :
  where_from k (map f zs) = [] ->
  forall j, (j < length zs)%nat -> f (nth j zs d) = false.
Proof.
  revert k. induction zs as [|z zs IH]; intros k H j Hj; simpl in *.
  - lia.
  - destruct (f z) eqn:E; [discriminate|].
    destruct j as [|j]; [exact E|]. apply (IH (S k) H). lia.
Qed.

Lemma where_from_head (zs : list A) (k i : nat) (tl : list nat) :
  where_from k (map f zs) = i :: tl ->
  exists n, i = (k + n)%nat /\ (n < length zs)%nat /\
    f (nth n zs d) = true /\
    forall j, (j < n)%nat -> f (nth j zs d) = false.
Proof.
  revert k. induction zs as [|z zs IH]; intros k H; simpl in *.
  - discriminate.
  - destruct (f z) eqn:E.
    + injection H as <- _. exists 0%nat. repeat split; try lia. exact E.
    + destruct (IH (S k) H) as (n & -> & Hn & Hf & Hlt).
      exists (S n). repeat split; try lia; [exact Hf|].
      intros [|j] Hj; [exact E|]. apply Hlt. lia.
Qed.

(** The head of [np.where] is what a left-to-right search finds. *)
Lemma where_from_find (zs : list A) (k : nat) :
  match where_from k (map f zs) with
  | [] => find f zs = None
  | i :: _ => find f zs = Some (nth (i - k) zs d)
  end.
Proof.
  revert k. induction zs as [|z zs IH]; intros k; simpl.
  - reflexivity.
  - destruct (f z) eqn:E.
    + now rewrite Nat.sub_diag.
    + specialize (IH (S k)).
      destruct (where_from (S k) (map f zs)) as [|i tl] eqn:W; [exact IH|].
      destruct (where_from_head zs (S k) i tl W) as (n & -> & _).
      replace (S k + n - k)%nat with (S n) by lia.
      replace (S k + n - S k)%nat with n in IH by lia. exact IH.
Qed.

End Where.

Lemma ge_mask_map (zs : list Q) (p : Params) (mu : Q) :
  ge_mask (trapmf_arr zs p) mu
  = map (fun z => Qle_bool (mu - tau) (trapmf_p z p)) zs.
Proof. unfold ge_mask, trapmf_arr. apply map_map. Qed.

(** ** defuzz_single, ascending *)

(** The ascending branch returns the first sample, in increasing order of
    index, whose membership is at least [mu - tau], and the mean of the
    samples when there is none. *)
Lemma defuzz_single_ascending (s : VentilationSystem) (mu : Q) (p : Params) :
  let zs := fan_speed s in
  (exists i, (i < length zs)%nat /\
     mu - tau <= trapmf_p (nth i zs 0) p /\
     (forall j, (j < i)%nat -> ~ mu - tau <= trapmf_p (nth j zs 0) p) /\
     defuzz_single s mu p true = nth i zs 0)
  \/
  ((forall j, (j < length zs)%nat -> ~ mu - tau <= trapmf_p (nth j zs 0) p) /\
   defuzz_single s mu p true = np_mean zs).
Proof.
  intros zs. unfold defuzz_single. fold zs. rewrite ge_mask_map.
  unfold np_where.
  destruct (where_from 0 _) as [|i tl] eqn:W.
  - right. split; [|reflexivity].
    intros j Hj Hle. apply Qle_bool_iff in Hle.
    now rewrite (where_from_nil _ 0 zs 0%nat W j Hj) in Hle.
  - left. destruct (where_from_head _ 0 zs 0%nat i tl W)
      as (n & -> & Hn & Hf & Hlt).
    exists n. cbn [length Nat.eqb hd Nat.add]. repeat split.
    + exact Hn.
    + now apply Qle_bool_iff.
    + intros j Hj Hle. apply Qle_bool_iff in Hle.
      now rewrite (Hlt j Hj) in Hle.
Qed.

Lemma defuzz_single_invert (s : VentilationSystem) (mu : Q) (p : Params) :
  defuzz_single s mu p true = invert (fan_speed s) p mu.
Proof.
  unfold defuzz_single, invert. rewrite ge_mask_map. unfold np_where.
  pose proof (where_from_find (fun z => Qle_bool (mu - tau) (trapmf_p z p))
                0 (fan_speed s) 0%nat) as H.
  destruct (where_from 0 _) as [|i tl]; rewrite H; cbn [length Nat.eqb hd].
  - reflexivity.
  - now rewrite Nat.sub_0_r.
Qed.

(** Whenever some sample reaches the level, the search stops at or before
    it. *)
Lemma defuzz_single_hit (s : VentilationSystem) (mu : Q) (p : Params) (k : nat) :
  (k < length (fan_speed s))%nat ->
  mu - tau <= trapmf_p (nth k (fan_speed s) 0) p ->
  exists i, (i <= k)%nat /\
    mu - tau <= trapmf_p (nth i (fan_speed s) 0) p /\
    defuzz_single s mu p true = nth i (fan_speed s) 0.
Proof.
  intros Hk Hle.
  destruct (defuzz_single_ascending s mu p)
    as [(i & Hi & Hge & Hfirst & Heq) | [Hnone _]].
  - exists i. repeat split; try assumption.
    destruct (Nat.le_gt_cases i k) as [H|H]; [exact H|].
    exfalso. exact (Hfirst k H Hle).
  - exfalso. exact (Hnone k Hk Hle).
Qed.

(** ** Invariants of constructed objects *)

Lemma Constructed_Wf (s : VentilationSystem) : Constructed s -> Wf s.
Proof.
  induction 1 as [tr | s a b _ [] | s r _ []].
  - constructor; reflexivity.
  - constructor; cbn [set_temp_range set_default_mfs fan_speed humidity
      temperature temp_range temp_mfs hum_mfs fan_mfs rules];
      try assumption; reflexivity.
  - constructor; assumption.
Qed.

Lemma Constructed_default : Constructed default_system.
Proof. exact (Constructed_init default_range). Qed.

(** ** The default universe *)

Lemma default_universe_length : length default_universe = 1000%nat.
Proof. apply linspace_length. Qed.

Lemma nth_default_universe (i : nat) :
  (i < 1000)%nat ->
  nth i default_universe 0 = 0 + inject_Z (Z.of_nat i) * ((101 - 0) / 999).
Proof. intros Hi. unfold default_universe. now rewrite nth_linspace. Qed.

Lemma default_universe_nonneg (i : nat) :
  (i < 1000)%nat -> 0 <= nth i default_universe 0.
Proof.
  intros Hi. rewrite nth_default_universe by exact Hi.
  assert (0 <= inject_Z (Z.of_nat i))
    by (change 0 with (inject_Z 0); rewrite <- Zle_Qle; lia).
  assert (0 <= inject_Z (Z.of_nat i) * ((101 - 0) / 999))
    by (apply Qmult_le_0_compat; [assumption | vm_compute; discriminate]).
  lra.
Qed.

Lemma default_universe_mono (i j : nat) :
  (i <= j)%nat -> (j < 1000)%nat ->
  nth i default_universe 0 <= nth j default_universe 0.
Proof.
  intros Hij Hj. rewrite !nth_default_universe by lia.
  apply Qplus_le_r, Qmult_le_compat_r; [|vm_compute; discriminate].
  rewrite <- Zle_Qle. lia.
Qed.

Lemma default_universe_first : nth 0 default_universe 0 == 0.
Proof. rewrite nth_default_universe by lia. reflexivity. Qed.

Lemma default_universe_mean : np_mean default_universe == 101 # 2.
Proof. vm_compute. reflexivity. Qed.

(** The plateau of every fan term holds a sample, below 100. *)
Lemma plateau_index_lt (term : Term) : (plateau_index term < 1000)%nat.
Proof. destruct term; cbn [plateau_index]; lia. Qed.

Lemma plateau_sample (term : Term) :
  trapmf_p (nth (plateau_index term) default_universe 0) (lookup fan_table term)
    == 1
  /\ nth (plateau_index term) default_universe 0 <= 100.
Proof.
  rewrite nth_default_universe by apply plateau_index_lt.
  destruct term; split; vm_compute; first [reflexivity | discriminate].
Qed.

(** ** Zero strength *)

Lemma defuzz_single_low_level (s : VentilationSystem) (mu : Q) (p : Params) :
  fan_speed s <> [] -> mu <= tau ->
  defuzz_single s mu p true = nth 0 (fan_speed s) 0.
Proof.
  intros Hne Hmu.
  destruct (defuzz_single_ascending s mu p)
    as [(i & Hi & _ & Hfirst & Heq) | [Hnone _]].
  - destruct i as [|i]; [exact Heq|].
    exfalso. apply (Hfirst 0%nat); [lia|].
    pose proof (trapmf_nonneg (pa p) (pb p) (pc p) (pd p)
                  (nth 0 (fan_speed s) 0)) as H0.
    unfold trapmf_p. lra.
  - exfalso. destruct (fan_speed s) as [|z0 rest] eqn:E; [now apply Hne|].
    apply (Hnone 0%nat); [cbn; lia|].
    pose proof (trapmf_nonneg (pa p) (pb p) (pc p) (pd p)
                  (nth 0 (z0 :: rest) 0)) as H0.
    unfold trapmf_p. lra.
Qed.

Lemma Constructed_fan_speed (s : VentilationSystem) :
  Constructed s -> fan_speed s = default_universe.
Proof. intros H. apply Constructed_Wf in H. apply H. Qed.

Lemma Constructed_fan_mfs (s : VentilationSystem) :
  Constructed s -> fan_mfs s = fan_table.
Proof. intros H. apply Constructed_Wf in H. apply H. Qed.

Lemma default_universe_nonempty : default_universe <> [].
Proof.
  intros H. pose proof default_universe_length as L.
  rewrite H in L. discriminate.
Qed.

(** C10.  On a constructed system, for every fan term and every level
    [alpha <= 1e-3], the term's inverse lookup returns the sample of index 0
    of the fan universe, which is [0]: memberships are nonnegative and the
    threshold [alpha - 1e-3] is not positive, so the scan stops at once, and
    the mean is not used. *)
Theorem defuzz_zero_strength (s : VentilationSystem) (term : Term) (alpha : Q) :
  Constructed s -> alpha <= tau ->
  call_fan s term alpha = nth 0 (fan_speed s) 0
  /\ call_fan s term alpha == 0
  /\ hd 0%nat (np_where (ge_mask (trapmf_arr (fan_speed s)
                                    (lookup (fan_mfs s) term)) alpha)) = 0%nat.
Proof.
  intros Hs Ha. pose proof (Constructed_fan_speed s Hs) as Hz.
  assert (Heq : call_fan s term alpha = nth 0 (fan_speed s) 0).
  { apply defuzz_single_low_level; [|exact Ha].
    rewrite Hz. apply default_universe_nonempty. }
  repeat split.
  - exact Heq.
  - rewrite Heq, Hz. apply default_universe_first.
  - rewrite ge_mask_map. unfold np_where.
    destruct (fan_speed s) as [|z0 rest] eqn:E;
      [symmetry in Hz; now apply default_universe_nonempty in Hz|].
    cbn [map where_from].
    assert (Ht : Qle_bool (alpha - tau)
                   (trapmf_p z0 (lookup (fan_mfs s) term)) = true).
    { apply Qle_bool_iff.
      pose proof (trapmf_nonneg (pa (lookup (fan_mfs s) term))
                    (pb (lookup (fan_mfs s) term)) (pc (lookup (fan_mfs s) term))
                    (pd (lookup (fan_mfs s) term)) z0).
      unfold trapmf_p. lra. }
    rewrite Ht. reflexivity.
Qed.

Lemma defuzz_zero_strength_witness :
  0 <= tau /\ call_fan default_system high 0 == 0.
Proof.
  split.
  - vm_compute. discriminate.
  - apply (defuzz_zero_strength default_system high 0).
    + exact Constructed_default.
    + vm_compute. discriminate.
Defined.

(** ** The fallback *)

Lemma call_fan_hit (s : VentilationSystem) (term : Term) (alpha : Q) :
  Constructed s -> alpha <= 1 + tau ->
  exists i, (i <= plateau_index term)%nat /\
    alpha - tau <= trapmf_p (nth i default_universe 0) (lookup fan_table term) /\
    call_fan s term alpha = nth i default_universe 0.
Proof.
  intros Hs Ha. unfold call_fan.
  rewrite (Constructed_fan_mfs s Hs).
  destruct (plateau_sample term) as [H1 _].
  pose proof (plateau_index_lt term) as Hk.
  destruct (defuzz_single_hit s alpha (lookup fan_table term)
              (plateau_index term)) as (i & Hi & Hge & Heq).
  - rewrite (Constructed_fan_speed s Hs), default_universe_length. exact Hk.
  - rewrite (Constructed_fan_speed s Hs), H1. lra.
  - rewrite (Constructed_fan_speed s Hs) in Hge, Heq.
    exists i. repeat split; assumption.
Qed.

(** C9.  On a constructed system (fan universe: 1000 linear samples over
    [[0, 101]]), for each of the five fan terms and every [alpha] in
    [[0, 1]]: the term's plateau holds a sample of membership exactly [1],
    so the index array of [defuzz_single] is not empty, the mean fallback is
    not taken, and the result is a sample of the universe whose membership
    is at least [alpha - 1e-3]. *)
Theorem fallback_unreachable (s : VentilationSystem) (term : Term) (alpha : Q) :
  Constructed s -> 0 <= alpha <= 1 ->
  (exists k, (k < 1000)%nat /\
     trapmf_p (nth k (fan_speed s) 0) (lookup (fan_mfs s) term) == 1) /\
  np_where (ge_mask (trapmf_arr (fan_speed s) (lookup (fan_mfs s) term)) alpha)
    <> [] /\
  exists i, (i < 1000)%nat /\
    call_fan s term alpha = nth i (fan_speed s) 0 /\
    alpha - tau <= trapmf_p (nth i (fan_speed s) 0) (lookup (fan_mfs s) term).
Proof.
  intros Hs [Ha0 Ha1].
  pose proof (Constructed_fan_speed s Hs) as Hz.
  pose proof (Constructed_fan_mfs s Hs) as Hf.
  pose proof (plateau_index_lt term) as Hk.
  destruct (plateau_sample term) as [H1 _].
  assert (Ht : tau == 1 # 1000) by reflexivity.
  repeat split.
  - exists (plateau_index term). rewrite Hz, Hf. split; assumption.
  - rewrite ge_mask_map. unfold np_where. intros W.
    pose proof (where_from_nil _ 0 (fan_speed s) 0%nat W
                  (plateau_index term)) as Hn.
    cbv beta in Hn. rewrite Hz, default_universe_length, Hf in Hn.
    specialize (Hn Hk).
    assert (Hle : alpha - tau
                  <= trapmf_p (nth (plateau_index term) default_universe 0)
                       (lookup fan_table term)) by (rewrite H1; lra).
    apply Qle_bool_iff in Hle. rewrite Hle in Hn. discriminate.
  - destruct (call_fan_hit s term alpha Hs) as (i & Hi & Hge & Heq); [lra|].
    exists i. rewrite Hz, Hf. repeat split; try assumption. lia.
Qed.

Lemma fallback_unreachable_witness :
  0 <= 1 <= 1 /\
  exists i, (i < 1000)%nat /\
    call_fan default_system medium 1 = nth i (fan_speed default_system) 0.
Proof.
  split.
  - split; vm_compute; discriminate.
  - destruct (fallback_unreachable default_system medium 1)
      as (_ & _ & i & Hi & Heq & _).
    + exact Constructed_default.
    + split; vm_compute; discriminate.
    + exists i. split; assumption.
Defined.

(** C2 as stated fails: a level above the largest membership a term can
    take, but by less than the tolerance, still finds a sample.  The medium
    fan term never exceeds [1], yet at level [1.0005] the lookup returns the
    sample [5555/111] (about 50.05) and not the mean [50.5]. *)
Lemma invert_above_maximum_cex :
  (forall x, trapmf_p x (lookup (fan_mfs default_system) medium) < 2001 # 2000)
  /\ call_fan default_system medium (2001 # 2000) == 5555 # 111
  /\ ~ call_fan default_system medium (2001 # 2000)
       == np_mean (fan_speed default_system).
Proof.
  assert (Hv : call_fan default_system medium (2001 # 2000) == 5555 # 111)
    by (vm_compute; reflexivity).
  split; [|split].
  - intros x. unfold trapmf_p.
    pose proof (trapmf_le_1 (pa (lookup (fan_mfs default_system) medium))
                  (pb (lookup (fan_mfs default_system) medium))
                  (pc (lookup (fan_mfs default_system) medium))
                  (pd (lookup (fan_mfs default_system) medium)) x).
    lra.
  - exact Hv.
  - change (fan_speed default_system) with default_universe.
    rewrite Hv, default_universe_mean. intros H. discriminate H.
Qed.

(** C2, amended.  On a constructed system, for every fan term and every
    level [alpha], the lookup evaluates the term's trapezoid on each of the
    1000 samples of the fan universe and returns the sample of least index
    whose membership is at least [alpha - 1e-3]; when no sample qualifies it
    returns the arithmetic mean of the universe, [50.5].  That is the case
    whenever [alpha] exceeds the largest membership by more than the
    tolerance ([alpha > 1 + 1e-3]).  The result is always a number of
    [[0, 101]]. *)
Theorem invert_scan_or_mean (s : VentilationSystem) (term : Term) (alpha : Q) :
  Constructed s ->
  let zs := fan_speed s in
  let p := lookup (fan_mfs s) term in
  length (trapmf_arr zs p) = 1000%nat /\
  ((exists i, (i < 1000)%nat /\
      alpha - tau <= trapmf_p (nth i zs 0) p /\
      (forall j, (j < i)%nat -> ~ alpha - tau <= trapmf_p (nth j zs 0) p) /\
      call_fan s term alpha = nth i zs 0)
   \/
   ((forall j, (j < 1000)%nat -> ~ alpha - tau <= trapmf_p (nth j zs 0) p) /\
    call_fan s term alpha = np_mean zs)) /\
  (1 + tau < alpha -> call_fan s term alpha = np_mean zs) /\
  np_mean zs == 101 # 2 /\
  0 <= call_fan s term alpha <= 101.
Proof.
  intros Hs zs p.
  pose proof (Constructed_fan_speed s Hs) as Hz. fold zs in Hz.
  assert (Hlen : length zs = 1000%nat)
    by (rewrite Hz; apply default_universe_length).
  assert (Hscan := defuzz_single_ascending s alpha p).
  cbv zeta in Hscan. fold zs in Hscan. rewrite Hlen in Hscan.
  change (defuzz_single s alpha p true) with (call_fan s term alpha) in Hscan.
  assert (Hmean : np_mean zs == 101 # 2)
    by (rewrite Hz; apply default_universe_mean).
  repeat split.
  - unfold trapmf_arr. rewrite length_map. exact Hlen.
  - exact Hscan.
  - intros Hbig.
    destruct Hscan as [(i & _ & Hge & _) | [_ Heq]]; [|exact Heq].
    exfalso. unfold trapmf_p in Hge.
    pose proof (trapmf_le_1 (pa p) (pb p) (pc p) (pd p) (nth i zs 0)). lra.
  - exact Hmean.
  - destruct Hscan as [(i & Hi & _ & _ & ->) | [_ ->]].
    + rewrite Hz. apply default_universe_nonneg, Hi.
    + rewrite Hmean. vm_compute. discriminate.
  - destruct Hscan as [(i & Hi & _ & _ & ->) | [_ ->]].
    + rewrite Hz.
      eapply Qle_trans; [apply (default_universe_mono i 999); lia|].
      rewrite nth_default_universe by lia. vm_compute. discriminate.
    + rewrite Hmean. vm_compute. discriminate.
Qed.

Lemma invert_scan_or_mean_witness :
  1 + tau < 2 /\
  call_fan default_system medium 2 = np_mean (fan_speed default_system).
Proof.
  split.
  - reflexivity.
  - apply (invert_scan_or_mean default_system medium 2).
    + exact Constructed_default.
    + reflexivity.
Defined.

(** ** evaluate *)

Lemma Qsum_nonneg (l : list Q) : (forall q, In q l -> 0 <= q) -> 0 <= Qsum l.
Proof.
  induction l as [|q l IH]; intros H; cbn [Qsum]; [lra|].
  assert (0 <= q) by (apply H; now left).
  assert (0 <= Qsum l) by (apply IH; intros; apply H; now right).
  lra.
Qed.

Lemma Qsum_zero (l : list Q) :
  (forall q, In q l -> 0 <= q) ->
  (Qsum l == 0 <-> forall q, In q l -> q == 0).
Proof.
  induction l as [|q l IH]; intros H; cbn [Qsum].
  - split; [intros _ q [] | reflexivity].
  - assert (Hq : 0 <= q) by (apply H; now left).
    assert (Hl : forall q, In q l -> 0 <= q) by (intros; apply H; now right).
    pose proof (Qsum_nonneg l Hl) as Hs. specialize (IH Hl).
    split.
    + intros E q' [<-|Hin]; [lra|]. apply IH; [lra | exact Hin].
    + intros E. assert (q == 0) by (apply E; now left).
      assert (Qsum l == 0) by (apply IH; intros; apply E; now right).
      lra.
Qed.

(** A weighted sum of values of [[0, M]] lies between [0] and [M] times the
    sum of the weights. *)
Lemma weighted_sum_bounds {A : Type} (w z : A -> Q) (M : Q) (l : list A) :
  (forall r, In r l -> 0 <= w r /\ 0 <= z r <= M) ->
  0 <= Qsum (map (fun r => w r * z r) l) <= M * Qsum (map w l).
Proof.
  induction l as [|r l IH]; intros H; cbn [map Qsum]; [lra|].
  destruct (H r (or_introl eq_refl)) as (Hw & Hz0 & HzM).
  destruct IH as [IH0 IHM]; [intros; apply H; now right|].
  assert (0 <= w r * z r) by (apply Qmult_le_0_compat; assumption).
  assert (0 <= w r * (M - z r)) by (apply Qmult_le_0_compat; lra).
  split; [lra|].
  setoid_replace (M * (w r + Qsum (map w l)))
    with (w r * z r + w r * (M - z r) + M * Qsum (map w l)) by ring.
  lra.
Qed.

Section Evaluate.

Variable s : VentilationSystem.
Hypothesis Hs : Constructed s.
Variables t h : Q.

Lemma rule_step_spec (n d : Q) (r : Rule) :
  rule_step s t h (n, d) r
  = (n + firing_strength s t h r * crisp s t h r, d + firing_strength s t h r).
Proof.
  destruct r as [[t_term h_term] f_term].
  unfold rule_step, crisp, firing_strength, call_temp, call_hum, call_fan.
  cbn [snd]. rewrite py_min_Qmin, defuzz_single_invert.
  now rewrite (Constructed_fan_mfs s Hs).
Qed.

Lemma fold_rule_step (rs : list Rule) (n d : Q) :
  let acc := fold_left (rule_step s t h) rs (n, d) in
  fst acc == n + Qsum (map (fun r => firing_strength s t h r * crisp s t h r) rs)
  /\ snd acc == d + Qsum (map (firing_strength s t h) rs).
Proof.
  revert n d. induction rs as [|r rs IH]; intros n d; cbn [fold_left map Qsum].
  - cbn [fst snd]. split; ring.
  - rewrite rule_step_spec. destruct (IH (n + firing_strength s t h r * crisp s t h r)
                                        (d + firing_strength s t h r)) as [H1 H2].
    cbv zeta. rewrite H1, H2. split; ring.
Qed.

Lemma firing_strength_range (r : Rule) : 0 <= firing_strength s t h r <= 1.
Proof.
  destruct r as [[t_term h_term] f_term]. unfold firing_strength, trapmf_p.
  split.
  - apply Q.min_glb; apply trapmf_nonneg.
  - eapply Qle_trans; [apply Q.le_min_l | apply trapmf_le_1].
Qed.

Lemma crisp_call_fan (r : Rule) :
  crisp s t h r = call_fan s (snd r) (firing_strength s t h r).
Proof.
  unfold crisp, call_fan.
  now rewrite defuzz_single_invert, (Constructed_fan_mfs s Hs).
Qed.

Lemma crisp_range (r : Rule) : 0 <= crisp s t h r <= 100.
Proof.
  destruct (firing_strength_range r) as [_ H1].
  rewrite crisp_call_fan.
  destruct (call_fan_hit s (snd r) (firing_strength s t h r) Hs)
    as (i & Hi & _ & ->).
  - assert (tau == 1 # 1000) by reflexivity. lra.
  - pose proof (plateau_index_lt (snd r)) as Hk.
    destruct (plateau_sample (snd r)) as [_ H100].
    split.
    + apply default_universe_nonneg. lia.
    + eapply Qle_trans; [apply (default_universe_mono i _ Hi Hk)|].
      exact H100.
Qed.

Lemma accumulators :
  let acc := fold_left (rule_step s t h) (rules s) (0, 0) in
  fst acc == spec_numerator s t h /\ snd acc == spec_denominator s t h.
Proof.
  cbv zeta. rewrite (wf_rules s (Constructed_Wf s Hs)).
  destruct (fold_rule_step rule_table 0 0) as [H1 H2].
  unfold spec_numerator, spec_denominator.
  split; [rewrite H1 | rewrite H2]; ring.
Qed.

Lemma evaluate_spec_evaluate : evaluate s t h == spec_evaluate s t h.
Proof.
  destruct accumulators as [Hn Hd]. unfold evaluate, spec_evaluate.
  destruct (fold_left (rule_step s t h) (rules s) (0, 0)) as [n d].
  cbn [fst snd] in Hn, Hd.
  rewrite <- (Qeqb_comp _ _ Hd 0 0 (Qeq_refl 0)).
  destruct (Qeq_bool d 0); cbn [negb]; [reflexivity|].
  now rewrite Hn, Hd.
Qed.

Lemma spec_denominator_nonneg : 0 <= spec_denominator s t h.
Proof.
  apply Qsum_nonneg. intros q Hq. apply in_map_iff in Hq.
  destruct Hq as (r & <- & _). apply firing_strength_range.
Qed.

Lemma spec_numerator_bounds :
  0 <= spec_numerator s t h <= 100 * spec_denominator s t h.
Proof.
  apply weighted_sum_bounds. intros r _. split.
  - apply firing_strength_range.
  - apply crisp_range.
Qed.

End Evaluate.

(** C1.  On a constructed system, for all inputs [t] and [h]: the rule
    list is the table of 25 rules in its order; each turn of the loop of
    [evaluate] adds [alpha * z] to the numerator and [alpha] to the
    denominator, where [alpha] is the minimum of the temperature term's and
    the humidity term's membership at [(t, h)] and [z] the inverse lookup of
    the rule's fan term at level [alpha]; the loop leaves the two sums over
    the table in the accumulators; and [evaluate] returns their quotient
    when the denominator is not zero, and [0] when it is. *)
Theorem evaluate_is_weighted_average (s : VentilationSystem) (t h : Q) :
  Constructed s ->
  rules s = rule_table /\ length (rules s) = 25%nat /\
  (forall (n d : Q) (r : Rule),
     rule_step s t h (n, d) r
     = (n + firing_strength s t h r * crisp s t h r,
        d + firing_strength s t h r)) /\
  fst (fold_left (rule_step s t h) (rules s) (0, 0)) == spec_numerator s t h /\
  snd (fold_left (rule_step s t h) (rules s) (0, 0)) == spec_denominator s t h /\
  evaluate s t h == spec_evaluate s t h /\
  (~ spec_denominator s t h == 0 ->
     evaluate s t h == spec_numerator s t h / spec_denominator s t h) /\
  (spec_denominator s t h == 0 -> evaluate s t h == 0).
Proof.
  intros Hs. pose proof (wf_rules s (Constructed_Wf s Hs)) as Hr.
  destruct (accumulators s Hs t h) as [Hn Hd].
  pose proof (evaluate_spec_evaluate s Hs t h) as He.
  split; [exact Hr|]. split; [rewrite Hr; reflexivity|].
  split; [intros n d r; apply rule_step_spec, Hs|].
  split; [exact Hn|]. split; [exact Hd|]. split; [exact He|].
  split; intros H; rewrite He; unfold spec_evaluate.
  - destruct (Qeq_bool _ 0) eqn:E; [|reflexivity].
    apply Qeq_bool_eq in E. contradiction.
  - apply Qeq_eq_bool in H. rewrite H. reflexivity.
Qed.

Lemma evaluate_is_weighted_average_witness :
  length (rules default_system) = 25%nat /\
  evaluate default_system 50 50 == spec_evaluate default_system 50 50.
Proof.
  destruct (evaluate_is_weighted_average default_system 50 50
              Constructed_default) as (_ & Hl & _ & _ & _ & He & _).
  split; [exact Hl | exact He].
Defined.

(** ** The range of the output *)

(** In the arithmetic of the model, on unbounded integers, [evaluate]
    returns a number of [[0, 100]] on every constructed system for every
    temperature and humidity; the integer widths of the program are left
    out here. *)
Theorem evaluate_range (s : VentilationSystem) (t h : Q) :
  Constructed s -> 0 <= evaluate s t h <= 100.
Proof.
  intros Hs. rewrite (evaluate_spec_evaluate s Hs t h). unfold spec_evaluate.
  destruct (Qeq_bool (spec_denominator s t h) 0) eqn:E.
  - split; vm_compute; discriminate.
  - apply Qeq_bool_neq in E.
    pose proof (spec_denominator_nonneg s t h) as Hd.
    destruct (spec_numerator_bounds s Hs t h) as [Hn0 HnM].
    assert (Hpos : 0 < spec_denominator s t h).
    { apply Qle_lteq in Hd. destruct Hd as [Hd|Hd]; [exact Hd|].
      exfalso. apply E. symmetry. exact Hd. }
    split.
    + apply Qle_shift_div_l; [exact Hpos | lra].
    + apply Qle_shift_div_r; [exact Hpos | exact HnM].
Qed.

Lemma evaluate_range_witness :
  0 <= evaluate default_system 1000 (-7) <= 100.
Proof. exact (evaluate_range default_system 1000 (-7) Constructed_default). Defined.

(** ** Zero output *)

(** C3 as stated fails in its only-when half: at
    temperature 5 and humidity 5 on the default system the first rule,
    [(very_low, very_low, very_low)], fires with strength [1], and the output
    is [0], because the inverse lookup of the [very_low] fan term is [0]. *)
Lemma zero_output_while_firing_cex :
  evaluate default_system 5 5 == 0 /\
  In (very_low, very_low, very_low) (rules default_system) /\
  py_min (call_temp default_system very_low 5) (call_hum default_system very_low 5)
    == 1.
Proof.
  split; [|split].
  - vm_compute. reflexivity.
  - left. reflexivity.
  - vm_compute. reflexivity.
Qed.

(** C3, amended.  On a constructed system, if every rule's firing strength
    is [0] at [(t, h)] then [evaluate] returns [0]; and [evaluate] returns
    [0] exactly when, for every rule, the firing strength is [0] or the
    rule's crisp value [z] is [0]. *)
Theorem evaluate_zero_iff (s : VentilationSystem) (t h : Q) :
  Constructed s ->
  ((forall r, In r (rules s) -> firing_strength s t h r == 0) ->
   evaluate s t h == 0) /\
  (evaluate s t h == 0 <->
   forall r, In r (rules s) ->
     firing_strength s t h r == 0 \/ crisp s t h r == 0).
Proof.
  intros Hs. rewrite (wf_rules s (Constructed_Wf s Hs)).
  rewrite (evaluate_spec_evaluate s Hs t h).
  pose proof (spec_denominator_nonneg s t h) as Hd.
  destruct (spec_numerator_bounds s Hs t h) as [Hn0 HnM].
  assert (Hden : spec_denominator s t h == 0 <->
                 forall r, In r rule_table -> firing_strength s t h r == 0).
  { unfold spec_denominator. rewrite Qsum_zero.
    - split.
      + intros H r Hr. apply H, in_map, Hr.
      + intros H q Hq. apply in_map_iff in Hq.
        destruct Hq as (r & <- & Hr). apply H, Hr.
    - intros q Hq. apply in_map_iff in Hq.
      destruct Hq as (r & <- & _). apply firing_strength_range. }
  assert (Hnum : spec_numerator s t h == 0 <->
                 forall r, In r rule_table ->
                   firing_strength s t h r == 0 \/ crisp s t h r == 0).
  { unfold spec_numerator. rewrite Qsum_zero.
    - split.
      + intros H r Hr. apply Qmult_integral, H.
        apply (in_map (fun r => firing_strength s t h r * crisp s t h r)), Hr.
      + intros H q Hq. apply in_map_iff in Hq.
        destruct Hq as (r & <- & Hr).
        destruct (H r Hr) as [E|E]; rewrite E; ring.
    - intros q Hq. apply in_map_iff in Hq.
      destruct Hq as (r & <- & _). apply Qmult_le_0_compat.
      + apply firing_strength_range.
      + apply crisp_range, Hs. }
  unfold spec_evaluate.
  destruct (Qeq_bool (spec_denominator s t h) 0) eqn:E.
  - apply Qeq_bool_eq in E. split; [reflexivity|].
    split; [|reflexivity].
    intros _ r Hr. left. apply Hden; assumption.
  - apply Qeq_bool_neq in E. split.
    + intros H. exfalso. apply E, Hden, H.
    + rewrite <- Hnum. split.
      * intros H.
        assert (Hm : spec_numerator s t h / spec_denominator s t h
                     * spec_denominator s t h == spec_numerator s t h)
          by (apply Qdiv_mult_cancel; exact E).
        rewrite H in Hm. rewrite <- Hm. ring.
      * intros H. rewrite H. unfold Qdiv. ring.
Qed.

Lemma evaluate_zero_iff_witness :
  evaluate default_system 5 5 == 0 <->
  forall r, In r (rules default_system) ->
    firing_strength default_system 5 5 r == 0 \/ crisp default_system 5 5 r == 0.
Proof.
  exact (proj2 (evaluate_zero_iff default_system 5 5 Constructed_default)).
Defined.

(** ** Reconfiguring the temperature range *)

(** An accepted range overwrites everything an [Overflow] line had
    assigned. *)
Lemma set_temp_range_after_overflow (s : VentilationSystem) (a' b' : Z)
    (built : bool) (a b : Z) :
  set_temp_range (assign_until_overflow s a' b' built) a b
  = set_temp_range s a b.
Proof. reflexivity. Qed.

Lemma input_temp_range_skips (s : VentilationSystem) (skipped : list Line)
    (a b : Z) (rest : Console) :
  forallb (fun l => negb (is_range_line l)) skipped = true ->
  input_temp_range s (skipped ++ Ints [a; b] :: rest)
  = Some (set_temp_range s a b, rest).
Proof.
  revert s. induction skipped as [|l skipped IH]; intros s H; cbn [app].
  - reflexivity.
  - cbn [forallb] in H. apply andb_prop in H. destruct H as [Hl Hrest].
    destruct l as [|[|z0 [|z1 [|z2 zs]]]|a' b' built];
      cbn [input_temp_range]; try exact (IH s Hrest).
    + discriminate Hl.
    + rewrite (IH _ Hrest). now rewrite set_temp_range_after_overflow.
Qed.

Lemma temp_table_layout (tr : Range) :
  let lo := inject_Z (range_lo tr) in
  let hi := inject_Z (range_hi tr) in
  let at_ := offset_point lo hi in
  let T := temp_table tr in
  Params_eq (lookup T very_low)
    (mkParams (left_shoulder_edge lo hi) lo (at_ (2 # 10)) (at_ (3 # 10))) /\
  Params_eq (lookup T low)
    (mkParams (at_ (2 # 10)) (at_ (3 # 10)) (at_ (4 # 10)) (at_ (5 # 10))) /\
  Params_eq (lookup T medium)
    (mkParams (at_ (4 # 10)) (at_ (5 # 10)) (at_ (6 # 10)) (at_ (7 # 10))) /\
  Params_eq (lookup T high)
    (mkParams (at_ (6 # 10)) (at_ (7 # 10)) (at_ (8 # 10)) (at_ (9 # 10))) /\
  Params_eq (lookup T very_high)
    (mkParams (at_ (8 # 10)) (at_ (9 # 10)) hi (right_shoulder_edge hi)).
Proof.
  destruct tr as [[tmin tmax] step].
  unfold Params_eq, temp_table, offset_point, right_shoulder_edge.
  cbn [lookup t_very_low t_low t_medium t_high t_very_high pa pb pc pd
       range_lo range_hi fst snd].
  rewrite left_shoulder_edge_Z, inject_Z_minus', inject_Z_mult.
  change (inject_Z 10) with 10.
  repeat split; reflexivity.
Qed.

(** C7 as stated fails for a range the [try] cannot process: on two
    integers too large for a double the body raises, the bare [except]
    takes it for a wrong input, and the range in force afterwards is the
    next accepted one, not the one entered. *)
Lemma input_temp_range_overflow_cex :
  exists s',
    input_temp_range default_system
      [Overflow (10 ^ 400) (10 ^ 400 + 1) false; Ints [0; 100]]%Z
    = Some (s', []) /\
    temp_range s' = (0, 101, 1)%Z /\
    temp_range s' <> (10 ^ 400, 10 ^ 400 + 1 + 1, 1)%Z.
Proof.
  eexists. split; [cbn [input_temp_range]; reflexivity|].
  split; [reflexivity|].
  intros H. apply (f_equal (fun r => Z.eqb (range_lo r) 0)) in H.
  vm_compute in H. discriminate H.
Qed.

(** C7, amended.  The statement holds for every range the [try] accepts;
    lines it does not accept, among them [Overflow] lines, are passed over
    and leave no trace.  On a constructed system, when the first line of the input that
    holds exactly two integers holds [min] and [max], [input_temp_range]
    returns with: the temperature universe rebuilt as the 1000 samples
    [min + i * (max + 1 - min) / 999], the five temperature terms recomputed
    from the range [(min, max + 1)], and the humidity and fan variables as
    they were: same universes, same parameters, and every humidity and fan
    membership curve, humidity degree and fan inverse lookup pointwise the
    same before and after. *)
Theorem input_temp_range_frame (s : VentilationSystem) (skipped : list Line)
    (a b : Z) (rest : Console) :
  Constructed s ->
  forallb (fun l => negb (is_range_line l)) skipped = true ->
  exists s',
    input_temp_range s (skipped ++ Ints [a; b] :: rest) = Some (s', rest) /\
    Constructed s' /\
    temp_range s' = (a, b + 1, 1)%Z /\
    length (temperature s') = 1000%nat /\
    (forall i, (i < 1000)%nat ->
       nth i (temperature s') 0
       == inject_Z a
          + inject_Z (Z.of_nat i) * ((inject_Z b + 1 - inject_Z a) / 999)) /\
    temp_mfs s' = temp_table (a, b + 1, 1)%Z /\
    humidity s' = humidity s /\ hum_mfs s' = hum_mfs s /\
    fan_speed s' = fan_speed s /\ fan_mfs s' = fan_mfs s /\
    rules s' = rules s /\
    (forall term x, call_hum s' term x = call_hum s term x) /\
    (forall term,
       trapmf_arr (humidity s') (lookup (hum_mfs s') term)
       = trapmf_arr (humidity s) (lookup (hum_mfs s) term)) /\
    (forall term,
       trapmf_arr (fan_speed s') (get_fan_params term)
       = trapmf_arr (fan_speed s) (get_fan_params term)) /\
    (forall term mu, call_fan s' term mu = call_fan s term mu) /\
    (let lo := inject_Z a in
     let hi := inject_Z (b + 1) in
     let at_ := offset_point lo hi in
     Params_eq (lookup (temp_mfs s') very_low)
       (mkParams (left_shoulder_edge lo hi) lo (at_ (2 # 10)) (at_ (3 # 10))) /\
     Params_eq (lookup (temp_mfs s') low)
       (mkParams (at_ (2 # 10)) (at_ (3 # 10)) (at_ (4 # 10)) (at_ (5 # 10))) /\
     Params_eq (lookup (temp_mfs s') medium)
       (mkParams (at_ (4 # 10)) (at_ (5 # 10)) (at_ (6 # 10)) (at_ (7 # 10))) /\
     Params_eq (lookup (temp_mfs s') high)
       (mkParams (at_ (6 # 10)) (at_ (7 # 10)) (at_ (8 # 10)) (at_ (9 # 10))) /\
     Params_eq (lookup (temp_mfs s') very_high)
       (mkParams (at_ (8 # 10)) (at_ (9 # 10)) hi (right_shoulder_edge hi))).
Proof.
  intros Hs Hskip. exists (set_temp_range s a b).
  destruct (Constructed_Wf s Hs) as [Hfs Hh _ _ Hhm Hfm Hr].
  assert (Hhm' : hum_mfs (set_temp_range s a b) = hum_mfs s)
    by (rewrite Hhm; reflexivity).
  assert (Hfm' : fan_mfs (set_temp_range s a b) = fan_mfs s)
    by (rewrite Hfm; reflexivity).
  split; [apply input_temp_range_skips, Hskip|].
  split; [apply Constructed_range, Hs|].
  split; [reflexivity|].
  split; [apply linspace_length|].
  split.
  { intros i Hi.
    cbn [set_temp_range set_default_mfs temperature range_lo range_hi fst snd].
    rewrite nth_linspace by exact Hi.
    rewrite inject_Z_plus. change (inject_Z (Z.of_nat 1000 - 1)) with 999.
    change (inject_Z 1) with 1. reflexivity. }
  split; [reflexivity|].
  split; [reflexivity|]. split; [exact Hhm'|].
  split; [reflexivity|]. split; [exact Hfm'|].
  split; [reflexivity|].
  split; [intros term x; unfold call_hum; now rewrite Hhm'|].
  split; [intros term; now rewrite Hhm'|].
  split; [reflexivity|].
  split; [intros term mu; unfold call_fan, defuzz_single; now rewrite Hfm'|].
  exact (temp_table_layout (a, b + 1, 1)%Z).
Qed.

Lemma input_temp_range_frame_witness :
  exists s',
    input_temp_range default_system
      [Garbage; Ints [7]; Ints [-30; 30]; Ints [5]]%Z
    = Some (s', [Ints [5]]%Z) /\
    temp_range s' = (-30, 31, 1)%Z /\
    hum_mfs s' = hum_mfs default_system.
Proof.
  destruct (input_temp_range_frame default_system [Garbage; Ints [7]]%Z
              (-30) 30 [Ints [5]]%Z Constructed_default eq_refl)
    as (s' & Hrun & _ & Htr & _ & _ & _ & _ & Hhm & _).
  exists s'. split; [exact Hrun|]. split; [exact Htr | exact Hhm].
Defined.

(** ** The override after inference *)

Lemma py_int_floor (q : Q) : 0 <= q -> py_int q = Qfloor q.
Proof.
  destruct q as [n d]. unfold Qle, py_int, Qfloor. cbn [Qnum Qden].
  intros H. apply Z.quot_div_nonneg; lia.
Qed.

Lemma py_int_ceiling (q : Q) : q <= 0 -> py_int q = Qceiling q.
Proof.
  destruct q as [n d]. unfold Qle, py_int, Qceiling, Qfloor, Qopp.
  cbn [Qnum Qden]. intros H.
  rewrite <- (Z.opp_involutive n) at 1.
  rewrite Z.quot_opp_l by lia.
  rewrite Z.quot_div_nonneg by lia. reflexivity.
Qed.

(** An integer at or above [q] is at or above [int(q)]. *)
Lemma py_int_le (q : Q) (z : Z) : q <= inject_Z z -> (py_int q <= z)%Z.
Proof.
  intros H. destruct (Qlt_le_dec q 0) as [Hneg|Hpos].
  - rewrite py_int_ceiling by lra.
    rewrite <- (Qceiling_Z z). apply Qceiling_resp_le, H.
  - rewrite py_int_floor by exact Hpos.
    rewrite <- (Qfloor_Z z). apply Qfloor_resp_le, H.
Qed.

Lemma run_reports (s s' : VentilationSystem) (stdin rest : Console) :
  run s stdin = Some (s', rest) ->
  exists s1 temp hum,
    res s' = if (temp >=? very_high_bound s1)%Z then 100
             else evaluate s1 (inject_Z temp) (inject_Z hum).
Proof.
  unfold run. intros H.
  destruct (input_temp_range s stdin) as [[s1 rest1]|]; [|discriminate].
  destruct (input_values s1 rest1) as [[[temp hum] rest2]|]; [|discriminate].
  injection H as <- _. exists s1, temp, hum.
  unfold is_very_high.
  change (very_high_bound (set_res s1 _)) with (very_high_bound s1).
  destruct (temp >=? very_high_bound s1)%Z; reflexivity.
Qed.

(** The bound of the override is a truncated one.
    With the stored range [(0, 101)] (entered as [0 100]) the temperature 90
    is below [0 + 0.9 * (101 - 0) = 90.9], and the inferred output
    [9619/111] (about 86.7) is replaced by 100.  With the entered bounds
    [-30 -10] the temperature [-12] is at [-30 + 0.9 * (-10 - -30) = -12],
    and the inferred output [535300/6993] (about 76.5) is reported
    unchanged. *)
Lemma is_very_high_cex :
  (inject_Z 90 < inject_Z 0 + (9 # 10) * (inject_Z 101 - inject_Z 0) /\
   exists s',
     run default_system [Ints [0; 100]; Ints [90]; Ints [50]]%Z = Some (s', [])
     /\ temp_range s' = (0, 101, 1)%Z
     /\ evaluate s' 90 50 == 9619 # 111
     /\ res s' == 100)
  /\
  (inject_Z (-30) + (9 # 10) * (inject_Z (-10) - inject_Z (-30)) <= inject_Z (-12) /\
   exists s',
     run default_system [Ints [-30; -10]; Ints [-12]; Ints [50]]%Z = Some (s', [])
     /\ res s' == 535300 # 6993
     /\ ~ res s' == 100).
Proof.
  split; split.
  - reflexivity.
  - eexists. split; [reflexivity|]. split; [reflexivity|].
    split; vm_compute; reflexivity.
  - vm_compute. discriminate.
  - eexists. split; [reflexivity|].
    split; [vm_compute; reflexivity | vm_compute; discriminate].
Qed.

(** What [is_very_high] computes.  With [(min, max)] the stored range (the entered lower
    bound and the entered upper bound plus one), [is_very_high] sets the
    reported output to 100 exactly when the temperature is at or above
    [int(min + 0.9 * (max - min))], the bound truncated toward zero, whatever
    the inferred value; below that integer it changes nothing.  Every
    integer temperature at or above [min + 0.9 * (max - min)] is therefore
    forced to 100. *)
Theorem is_very_high_truncated (s : VentilationSystem) (temp : Z) :
  let lo := range_lo (temp_range s) in
  let hi := range_hi (temp_range s) in
  let bound := inject_Z lo + (9 # 10) * inject_Z (hi - lo) in
  very_high_bound s = py_int bound /\
  py_int bound = (if Qlt_le_dec bound 0 then Qceiling bound else Qfloor bound) /\
  ((py_int bound <= temp)%Z -> is_very_high s temp = set_res s 100) /\
  ((py_int bound <= temp)%Z -> res (is_very_high s temp) = 100) /\
  ((temp < py_int bound)%Z -> is_very_high s temp = s) /\
  (bound <= inject_Z temp -> res (is_very_high s temp) = 100).
Proof.
  intros lo hi bound.
  assert (Hforce : (py_int bound <= temp)%Z ->
                   is_very_high s temp = set_res s 100).
  { intros H. unfold is_very_high.
    change (very_high_bound s) with (py_int bound).
    destruct (temp >=? py_int bound)%Z eqn:E; [reflexivity|].
    rewrite Z.geb_leb in E. apply Z.leb_gt in E. lia. }
  split; [reflexivity|]. split.
  { destruct (Qlt_le_dec bound 0).
    - apply py_int_ceiling. lra.
    - apply py_int_floor. assumption. }
  split; [exact Hforce|].
  split; [intros H; now rewrite Hforce|].
  split.
  - intros H. unfold is_very_high.
    change (very_high_bound s) with (py_int bound).
    destruct (temp >=? py_int bound)%Z eqn:E; [|reflexivity].
    apply Z.geb_le in E. lia.
  - intros H. rewrite Hforce; [reflexivity|]. apply py_int_le, H.
Qed.

Lemma is_very_high_truncated_witness :
  (very_high_bound default_system <= 95)%Z /\
  res (is_very_high default_system 95) = 100.
Proof.
  split.
  - vm_compute. discriminate.
  - apply (is_very_high_truncated default_system 95).
    vm_compute. discriminate.
Defined.

(** * Further properties of the code *)

(** ** Shapes of [trapmf] and [trimf] *)

(** Case analysis on every [Qmin] and [Qmax] in sight, then linear
    arithmetic. *)
Ltac qminmax :=
  unfold np_maximum, np_minimum in *;
  repeat match goal with
  | |- context [Qmax ?u ?v] =>
      pose proof (Q.max_spec u v);
      let m := fresh "m" in set (m := Qmax u v) in *; clearbody m
  | |- context [Qmin ?u ?v] =>
      pose proof (Q.min_spec u v);
      let m := fresh "m" in set (m := Qmin u v) in *; clearbody m
  | H : context [Qmax ?u ?v] |- _ =>
      pose proof (Q.max_spec u v);
      let m := fresh "m" in set (m := Qmax u v) in *; clearbody m
  | H : context [Qmin ?u ?v] |- _ =>
      pose proof (Q.min_spec u v);
      let m := fresh "m" in set (m := Qmin u v) in *; clearbody m
  end;
  lra.

Lemma Qdiv_lt_1 (n d : Q) : 0 < d -> n < d -> n / d < 1.
Proof. intros Hd Hn. apply Qlt_shift_div_r; [exact Hd | lra]. Qed.

(** X1. When neither denominator is zero the membership degree is a number
    of [[0, 1]], for every input and every parameter tuple, ordered or not.
    (On a zero denominator the float division of the program gives an
    infinity or a nan, which the model does not have.) *)
Theorem trapmf_range (x a b c d : Q) :
  ~ b - a + eps == 0 -> ~ d - c + eps == 0 ->
  0 <= trapmf x a b c d <= 1.
Proof. intros _ _. split; [apply trapmf_nonneg | apply trapmf_le_1]. Qed.

Lemma trapmf_range_witness :
  (~ 20 - 30 + eps == 0 /\ ~ 5 - 40 + eps == 0) /\
  0 <= trapmf 25 30 20 40 5 <= 1.
Proof.
  split.
  - split; intros H; vm_compute in H; discriminate H.
  - apply (trapmf_range 25 30 20 40 5);
      intros H; vm_compute in H; discriminate H.
Defined.

(** X2. With positive denominators (in particular when [a <= b <= c]) the
    triangle is the trapezoid with an empty plateau, and it stays strictly
    below [1]: the [eps] in the denominators keeps the peak from reaching full
    membership. *)
Theorem trimf_is_degenerate_trapmf (x a b c : Q) :
  0 < b - a + eps -> 0 < c - b + eps ->
  trimf x a b c == trapmf x a b b c /\ 0 <= trimf x a b c < 1.
Proof.
  intros Hl Hr. unfold trimf, trapmf.
  set (r1 := (x - a) / (b - a + eps)). set (r2 := (c - x) / (c - b + eps)).
  assert (Hpeak : 1 <= r1 -> r2 < 1).
  { intros H1. unfold r2. apply Qdiv_lt_1; [exact Hr|].
    assert (b - a + eps <= x - a).
    { destruct (Qlt_le_dec (x - a) (b - a + eps)) as [Hlt|Hle]; [|exact Hle].
      exfalso. apply (Qdiv_lt_1 _ _ Hl) in Hlt. fold r1 in Hlt. lra. }
    pose proof eps_pos. lra. }
  clearbody r1 r2.
  destruct (Qlt_le_dec r1 1) as [H1|H1].
  - split; qminmax.
  - specialize (Hpeak H1). split; qminmax.
Qed.

Lemma trimf_is_degenerate_trapmf_witness :
  (0 < 10 - 0 + eps /\ 0 < 20 - 10 + eps) /\
  trimf 10 0 10 20 == trapmf 10 0 10 10 20 /\ 0 <= trimf 10 0 10 20 < 1.
Proof.
  split.
  - split; reflexivity.
  - apply (trimf_is_degenerate_trapmf 10 0 10 20); reflexivity.
Defined.

(** X3. With positive denominators the trapezoid does not decrease up to [c -
    eps] and does not increase from [b + eps] on. *)
Theorem trapmf_monotone_edges (a b c d x y : Q) :
  0 < b - a + eps -> 0 < d - c + eps -> x <= y ->
  (y <= c - eps -> trapmf x a b c d <= trapmf y a b c d) /\
  (b + eps <= x -> trapmf y a b c d <= trapmf x a b c d).
Proof.
  intros Hl Hr Hxy. unfold trapmf.
  assert (H1 : (x - a) / (b - a + eps) <= (y - a) / (b - a + eps))
    by (apply Qdiv_le_mono; lra).
  assert (H2 : (d - y) / (d - c + eps) <= (d - x) / (d - c + eps))
    by (apply Qdiv_le_mono; lra).
  split; intros Hedge.
  - assert (H3 : 1 <= (d - y) / (d - c + eps)) by (apply Qdiv_ge_1; lra).
    set (r1x := (x - a) / (b - a + eps)) in *.
    set (r1y := (y - a) / (b - a + eps)) in *.
    set (r2x := (d - x) / (d - c + eps)) in *.
    set (r2y := (d - y) / (d - c + eps)) in *.
    clearbody r1x r1y r2x r2y. qminmax.
  - assert (H3 : 1 <= (x - a) / (b - a + eps)) by (apply Qdiv_ge_1; lra).
    set (r1x := (x - a) / (b - a + eps)) in *.
    set (r1y := (y - a) / (b - a + eps)) in *.
    set (r2x := (d - x) / (d - c + eps)) in *.
    set (r2y := (d - y) / (d - c + eps)) in *.
    clearbody r1x r1y r2x r2y. qminmax.
Qed.

Lemma trapmf_monotone_edges_witness :
  (0 < 50 - 40 + eps /\ 0 < 70 - 60 + eps /\ 42 <= 47 /\ 47 <= 60 - eps) /\
  trapmf 42 40 50 60 70 <= trapmf 47 40 50 60 70.
Proof.
  split.
  - repeat split; vm_compute; discriminate.
  - destruct (trapmf_monotone_edges 40 50 60 70 42 47) as [H _];
      [reflexivity | reflexivity | vm_compute; discriminate |].
    apply H. vm_compute. discriminate.
Defined.

(** ** The fan side *)

(** X4. The table the plot reads, [get_fan_params], holds the parameters the
    [fan_mfs] lambdas captured: the curves drawn for the fan are the ones
    [defuzz_single] searches. *)
Theorem plotted_fan_curves_are_searched (s : VentilationSystem) (term : Term) :
  Constructed s ->
  get_fan_params term = lookup (fan_mfs s) term /\
  trapmf_arr (fan_speed s) (get_fan_params term)
  = trapmf_arr (fan_speed s) (lookup (fan_mfs s) term).
Proof.
  intros Hs. rewrite (Constructed_fan_mfs s Hs).
  assert (H : get_fan_params term = lookup fan_table term)
    by (destruct term; reflexivity).
  split; [exact H | now rewrite H].
Qed.

Lemma plotted_fan_curves_are_searched_witness :
  get_fan_params high = lookup (fan_mfs default_system) high.
Proof.
  apply (plotted_fan_curves_are_searched default_system high Constructed_default).
Defined.

(** X5. The inverse lookup does not decrease with the level, as long as the
    level can be reached ([alpha' <= 1 + 1e-3]). *)
Theorem call_fan_monotone (s : VentilationSystem) (term : Term) (alpha alpha' : Q) :
  Constructed s -> alpha <= alpha' -> alpha' <= 1 + tau ->
  call_fan s term alpha <= call_fan s term alpha'.
Proof.
  intros Hs Hle Htop.
  pose proof (Constructed_fan_speed s Hs) as Hz.
  pose proof (Constructed_fan_mfs s Hs) as Hf.
  pose proof (plateau_index_lt term) as Hk.
  destruct (call_fan_hit s term alpha' Hs Htop) as (i' & Hi' & Hge' & Heq').
  destruct (defuzz_single_hit s alpha (lookup (fan_mfs s) term) i')
    as (i & Hi & _ & Heq).
  - rewrite Hz, default_universe_length. lia.
  - rewrite Hz, Hf. lra.
  - unfold call_fan at 1. rewrite Heq, Heq', Hz.
    apply default_universe_mono; lia.
Qed.

Lemma call_fan_monotone_witness :
  ((3 # 10) <= (8 # 10) /\ (8 # 10) <= 1 + tau) /\
  call_fan default_system high (3 # 10) <= call_fan default_system high (8 # 10).
Proof.
  split.
  - split; vm_compute; discriminate.
  - apply (call_fan_monotone default_system high (3 # 10) (8 # 10)
             Constructed_default); vm_compute; discriminate.
Defined.

(** X6. The [very_low] fan term is searched like the others, from the left,
    and its left shoulder already holds at the first sample: for every level
    up to [1] its inverse lookup is [0]. *)
Theorem very_low_fan_is_zero (s : VentilationSystem) (alpha : Q) :
  Constructed s -> alpha <= 1 -> call_fan s very_low alpha == 0.
Proof.
  intros Hs Ha.
  pose proof (Constructed_fan_speed s Hs) as Hz.
  pose proof (Constructed_fan_mfs s Hs) as Hf.
  destruct (defuzz_single_hit s alpha (lookup (fan_mfs s) very_low) 0)
    as (i & Hi & _ & Heq).
  - rewrite Hz, default_universe_length. lia.
  - rewrite Hz, Hf, nth_default_universe by lia.
    assert (H : (999 # 1000)
                <= trapmf_p (0 + inject_Z (Z.of_nat 0) * ((101 - 0) / 999))
                     (lookup fan_table very_low))
      by (vm_compute; discriminate).
    assert (tau == 1 # 1000) by reflexivity. lra.
  - unfold call_fan. rewrite Heq, Hz.
    replace i with 0%nat by lia. apply default_universe_first.
Qed.

Lemma very_low_fan_is_zero_witness :
  1 <= 1 /\ call_fan default_system very_low 1 == 0.
Proof.
  split.
  - vm_compute. discriminate.
  - apply (very_low_fan_is_zero default_system 1 Constructed_default).
    vm_compute. discriminate.
Defined.

(** ** The rule table *)

Lemma rule_table_functional (temp_term hum_term : Term) :
  exists fan_term,
    In (temp_term, hum_term, fan_term) rule_table /\
    forall f, In (temp_term, hum_term, f) rule_table -> f = fan_term.
Proof.
  destruct temp_term, hum_term; eexists;
    (split; [cbn; tauto|]);
    intros f H; cbn in H;
    repeat (destruct H as [H|H]; [congruence|]); contradiction.
Qed.

(** X7. Every pair of a temperature term and a humidity term has exactly one
    rule. *)
Theorem rules_cover_each_pair_once (s : VentilationSystem)
    (temp_term hum_term : Term) :
  Constructed s ->
  exists fan_term,
    In (temp_term, hum_term, fan_term) (rules s) /\
    forall f, In (temp_term, hum_term, f) (rules s) -> f = fan_term.
Proof.
  intros Hs. rewrite (wf_rules s (Constructed_Wf s Hs)).
  apply rule_table_functional.
Qed.

Lemma rules_cover_each_pair_once_witness :
  exists fan_term,
    In (very_low, very_high, fan_term) (rules default_system) /\
    forall f, In (very_low, very_high, f) (rules default_system) -> f = fan_term.
Proof.
  exact (rules_cover_each_pair_once default_system very_low very_high
           Constructed_default).
Defined.

(** ** Supports of the terms *)

(** With positive denominators a trapezoid is positive strictly between its
    outer edges. *)
Lemma trapmf_pos (x a b c d : Q) :
  0 < b - a + eps -> 0 < d - c + eps -> a < x -> x < d ->
  0 < trapmf x a b c d.
Proof.
  intros Hl Hr Ha Hd. unfold trapmf.
  assert (H1 : 0 < (x - a) / (b - a + eps))
    by (apply Qlt_shift_div_l; [exact Hl | lra]).
  assert (H2 : 0 < (d - x) / (d - c + eps))
    by (apply Qlt_shift_div_l; [exact Hr | lra]).
  set (r1 := (x - a) / (b - a + eps)) in *.
  set (r2 := (d - x) / (d - c + eps)) in *.
  clearbody r1 r2. qminmax.
Qed.

Lemma hum_fires (h : Q) :
  - (100) < h -> h < 1000 ->
  exists term, 0 < trapmf_p h (lookup hum_table term).
Proof.
  intros Hlo Hhi. pose proof eps_pos as He.
  destruct (Qlt_le_dec h 30); [exists very_low|].
  2: destruct (Qlt_le_dec h 50); [exists low|].
  3: destruct (Qlt_le_dec h 70); [exists medium|].
  4: destruct (Qlt_le_dec h 90); [exists high | exists very_high].
  all: apply trapmf_pos;
    cbv [hum_table int_params lookup t_very_low t_low t_medium t_high
         t_very_high pa pb pc pd inject_Z]; lra.
Qed.

Lemma left_edge_below (lo hi : Z) :
  inject_Z (if (hi >? 10)%Z then lo - hi ^ 4 else lo - (Z.abs hi + 10) ^ 4)%Z
  < inject_Z lo.
Proof.
  rewrite <- Zlt_Qlt.
  destruct (hi >? 10)%Z eqn:E.
  - apply Z.gtb_gt in E.
    assert (0 < hi ^ 4)%Z by (apply Z.pow_pos_nonneg; lia). lia.
  - assert (0 < (Z.abs hi + 10) ^ 4)%Z by (apply Z.pow_pos_nonneg; lia). lia.
Qed.

Lemma temp_fires (tr : Range) (t : Q) :
  inject_Z (range_lo tr) < inject_Z (range_hi tr) ->
  0 < inject_Z (range_hi tr) ->
  inject_Z (range_lo tr) <= t <= inject_Z (range_hi tr) ->
  exists term, 0 < trapmf_p t (lookup (temp_table tr) term).
Proof.
  destruct tr as [[lo hi] step]. cbn [range_lo range_hi fst snd].
  intros Hspan Hpos [Hlo Hhi]. pose proof eps_pos as He.
  pose proof (left_edge_below lo hi) as Hedge.
  assert (Hs : inject_Z (hi - lo) == inject_Z hi - inject_Z lo)
    by apply inject_Z_minus'.
  assert (H10 : inject_Z (hi * 10) == inject_Z hi * 10)
    by (rewrite inject_Z_mult; reflexivity).
  unfold trapmf_p, temp_table. cbn [range_lo range_hi fst snd].
  set (A := inject_Z (if (hi >? 10)%Z then _ else _)) in *.
  set (L := inject_Z lo) in *. set (H := inject_Z hi) in *.
  set (S := inject_Z (hi - lo)) in *. set (D := inject_Z (hi * 10)) in *.
  clearbody A L H S D.
  destruct (Qlt_le_dec t (L + (3 # 10) * S)); [exists very_low|].
  2: destruct (Qlt_le_dec t (L + (5 # 10) * S)); [exists low|].
  3: destruct (Qlt_le_dec t (L + (7 # 10) * S)); [exists medium|].
  4: destruct (Qlt_le_dec t (L + (9 # 10) * S)); [exists high | exists very_high].
  all: cbn [lookup t_very_low t_low t_medium t_high t_very_high pa pb pc pd];
    apply trapmf_pos; lra.
Qed.

(** ** evaluate on and off the supports *)

Lemma Qsum_pos (l : list Q) (q : Q) :
  (forall x, In x l -> 0 <= x) -> In q l -> 0 < q -> 0 < Qsum l.
Proof.
  induction l as [|x l IH]; intros Hnn Hin Hq; [contradiction|].
  cbn [Qsum].
  assert (0 <= x) by (apply Hnn; now left).
  assert (0 <= Qsum l) by (apply Qsum_nonneg; intros; apply Hnn; now right).
  destruct Hin as [->|Hin]; [lra|].
  assert (0 < Qsum l) by (apply IH; [intros; apply Hnn; now right | assumption..]).
  lra.
Qed.

Lemma evaluate_zero_of_no_firing (s : VentilationSystem) (t h : Q) :
  Constructed s ->
  (forall r, In r rule_table -> firing_strength s t h r == 0) ->
  evaluate s t h == 0.
Proof.
  intros Hs Hz. rewrite (evaluate_spec_evaluate s Hs t h). unfold spec_evaluate.
  assert (Hd : spec_denominator s t h == 0).
  { unfold spec_denominator. apply Qsum_zero.
    - intros q Hq. apply in_map_iff in Hq.
      destruct Hq as (r & <- & _). apply firing_strength_range.
    - intros q Hq. apply in_map_iff in Hq.
      destruct Hq as (r & <- & Hr). apply Hz, Hr. }
  apply Qeq_eq_bool in Hd. rewrite Hd. reflexivity.
Qed.

Lemma evaluate_quotient (s : VentilationSystem) (t h : Q) :
  ~ snd (fold_left (rule_step s t h) (rules s) (0, 0)) == 0 ->
  evaluate s t h
  == fst (fold_left (rule_step s t h) (rules s) (0, 0))
     / snd (fold_left (rule_step s t h) (rules s) (0, 0)).
Proof.
  unfold evaluate.
  destruct (fold_left (rule_step s t h) (rules s) (0, 0)) as [n d].
  cbn [fst snd]. intros H.
  destruct (Qeq_bool d 0) eqn:E; [|reflexivity].
  apply Qeq_bool_eq in E. contradiction.
Qed.

(** X8. When the stored range [(lo, hi)] has [lo < hi] and [0 < hi], every
    temperature of [[lo, hi]] with every humidity of [[0, 100]] fires some
    rule: the denominator of [evaluate] is positive and the result is the
    quotient of the two accumulators, not the no-rule value. *)
Theorem in_range_inputs_fire (s : VentilationSystem) (t h : Q) :
  Constructed s ->
  inject_Z (range_lo (temp_range s)) < inject_Z (range_hi (temp_range s)) ->
  0 < inject_Z (range_hi (temp_range s)) ->
  inject_Z (range_lo (temp_range s)) <= t <= inject_Z (range_hi (temp_range s)) ->
  0 <= h <= 100 ->
  0 < snd (fold_left (rule_step s t h) (rules s) (0, 0)) /\
  evaluate s t h
  == fst (fold_left (rule_step s t h) (rules s) (0, 0))
     / snd (fold_left (rule_step s t h) (rules s) (0, 0)).
Proof.
  intros Hs Hspan Hpos Ht Hh.
  destruct (Constructed_Wf s Hs) as [_ _ _ Htm Hhm _ _].
  destruct (temp_fires (temp_range s) t Hspan Hpos Ht) as (tt & Htt).
  destruct (hum_fires h) as (ht & Hht); [lra | lra |].
  destruct (rule_table_functional tt ht) as (ft & Hin & _).
  destruct (accumulators s Hs t h) as [_ Hd].
  assert (Hden : 0 < snd (fold_left (rule_step s t h) (rules s) (0, 0))).
  { rewrite Hd. unfold spec_denominator.
    apply (Qsum_pos _ (firing_strength s t h (tt, ht, ft))).
    - intros q Hq. apply in_map_iff in Hq.
      destruct Hq as (r & <- & _). apply firing_strength_range.
    - apply in_map, Hin.
    - unfold firing_strength. rewrite Htm, Hhm.
      set (u := trapmf_p t _) in *. set (v := trapmf_p h _) in *.
      clearbody u v. qminmax. }
  split; [exact Hden|].
  apply evaluate_quotient. lra.
Qed.

Lemma in_range_inputs_fire_witness :
  0 < snd (fold_left (rule_step default_system 37 64) (rules default_system) (0, 0)).
Proof.
  apply (in_range_inputs_fire default_system 37 64 Constructed_default);
    first [ reflexivity | split; vm_compute; discriminate ].
Defined.

(** The condition [0 < hi] is needed: with the bounds [-100 -2] entered, the
    temperature [-10] lies between them and outside every temperature term,
    and [evaluate] returns the no-rule value. *)
Example negative_range_leaves_a_gap :
  (forall term,
     call_temp (set_temp_range default_system (-100) (-2)) term (-10) == 0) /\
  evaluate (set_temp_range default_system (-100) (-2)) (-10) 50 == 0.
Proof.
  split; [intros term; destruct term|]; vm_compute; reflexivity.
Qed.

Lemma firing_strength_zero_of_hum (s : VentilationSystem) (t h : Q) (r : Rule) :
  (forall term, call_hum s term h == 0) -> firing_strength s t h r == 0.
Proof.
  intros Hz. destruct r as [[t_term h_term] f_term]. unfold firing_strength.
  specialize (Hz h_term). unfold call_hum in Hz.
  pose proof (trapmf_nonneg (pa (lookup (temp_mfs s) t_term))
                (pb (lookup (temp_mfs s) t_term)) (pc (lookup (temp_mfs s) t_term))
                (pd (lookup (temp_mfs s) t_term)) t) as Ht.
  fold (trapmf_p t (lookup (temp_mfs s) t_term)) in Ht.
  set (u := trapmf_p t _) in *. set (v := trapmf_p h _) in *.
  clearbody u v. qminmax.
Qed.

Lemma firing_strength_zero_of_temp (s : VentilationSystem) (t h : Q) (r : Rule) :
  (forall term, call_temp s term t == 0) -> firing_strength s t h r == 0.
Proof.
  intros Hz. destruct r as [[t_term h_term] f_term]. unfold firing_strength.
  specialize (Hz t_term). unfold call_temp in Hz.
  pose proof (trapmf_nonneg (pa (lookup (hum_mfs s) h_term))
                (pb (lookup (hum_mfs s) h_term)) (pc (lookup (hum_mfs s) h_term))
                (pd (lookup (hum_mfs s) h_term)) h) as Hh.
  fold (trapmf_p h (lookup (hum_mfs s) h_term)) in Hh.
  set (u := trapmf_p t _) in *. set (v := trapmf_p h _) in *.
  clearbody u v. qminmax.
Qed.

(** X9. Within the [int64]-safe bounds, a humidity at or below [-100], or at
    or above [1000], lies outside every humidity term: whatever the
    temperature, no rule fires and [evaluate] returns [0]. *)
Theorem humidity_off_support_gives_zero (s : VentilationSystem) (t h : Q) :
  Constructed s -> int64_safe s t h -> h <= - (100) \/ 1000 <= h ->
  (forall term, call_hum s term h == 0) /\ evaluate s t h == 0.
Proof.
  intros Hs _ Hh.
  assert (Hz : forall term, call_hum s term h == 0).
  { intros term. unfold call_hum, trapmf_p.
    rewrite (wf_hum_mfs s (Constructed_Wf s Hs)).
    destruct Hh as [Hh|Hh];
      [apply trapmf_left_foot | apply trapmf_right_foot];
      destruct term;
      cbv [hum_table int_params lookup t_very_low t_low t_medium t_high
           t_very_high pa pb pc pd inject_Z]; lra. }
  split; [exact Hz|].
  apply evaluate_zero_of_no_firing; [exact Hs|].
  intros r _. apply firing_strength_zero_of_hum, Hz.
Qed.

Lemma humidity_off_support_gives_zero_witness :
  (int64_safe default_system 50 1200 /\ 1000 <= 1200) /\
  evaluate default_system 50 1200 == 0.
Proof.
  assert (Hsafe : int64_safe default_system 50 1200)
    by (unfold int64_safe; cbv zeta; repeat split; vm_compute; discriminate).
  split.
  - split; [exact Hsafe | vm_compute; discriminate].
  - apply (humidity_off_support_gives_zero default_system 50 1200
             Constructed_default Hsafe).
    right. vm_compute. discriminate.
Defined.

(** X10. Within the [int64]-safe bounds, when the stored range [(lo, hi)]
    has [lo <= hi] and [0 <= hi], a temperature at or above [10 * hi], the
    outer edge of the right shoulder, lies outside every temperature term: no
    rule fires and [evaluate] returns [0], whatever the humidity. *)
Theorem temperature_beyond_shoulder_gives_zero (s : VentilationSystem) (t h : Q) :
  Constructed s -> int64_safe s t h ->
  inject_Z (range_lo (temp_range s)) <= inject_Z (range_hi (temp_range s)) ->
  0 <= inject_Z (range_hi (temp_range s)) ->
  inject_Z (range_hi (temp_range s)) * 10 <= t ->
  (forall term, call_temp s term t == 0) /\ evaluate s t h == 0.
Proof.
  intros Hs _ Hspan Hpos Ht.
  assert (Hz : forall term, call_temp s term t == 0).
  { intros term. unfold call_temp, trapmf_p.
    rewrite (wf_temp_mfs s (Constructed_Wf s Hs)).
    destruct (temp_range s) as [[lo hi] step].
    cbn [range_lo range_hi fst snd] in *.
    assert (HS : inject_Z (hi - lo) == inject_Z hi - inject_Z lo)
      by apply inject_Z_minus'.
    assert (H10 : inject_Z (hi * 10) == inject_Z hi * 10)
      by (rewrite inject_Z_mult; reflexivity).
    unfold temp_table. cbn [range_lo range_hi fst snd].
    set (A := inject_Z (if (hi >? 10)%Z then _ else _)) in *.
    set (L := inject_Z lo) in *. set (H := inject_Z hi) in *.
    set (S := inject_Z (hi - lo)) in *. set (D := inject_Z (hi * 10)) in *.
    clearbody A L H S D.
    apply trapmf_right_foot;
      destruct term;
      cbn [lookup t_very_low t_low t_medium t_high t_very_high pa pb pc pd];
      lra. }
  split; [exact Hz|].
  apply evaluate_zero_of_no_firing; [exact Hs|].
  intros r _. apply firing_strength_zero_of_temp, Hz.
Qed.

Lemma temperature_beyond_shoulder_gives_zero_witness :
  (int64_safe default_system 1010 50 /\ inject_Z 101 * 10 <= 1010) /\
  evaluate default_system 1010 50 == 0.
Proof.
  assert (Hsafe : int64_safe default_system 1010 50)
    by (unfold int64_safe; cbv zeta; repeat split; vm_compute; discriminate).
  split.
  - split; [exact Hsafe | vm_compute; discriminate].
  - apply (temperature_beyond_shoulder_gives_zero default_system 1010 50
             Constructed_default Hsafe); vm_compute; discriminate.
Defined.

(** ** The largest output *)

Lemma crisp_le_top (s : VentilationSystem) (t h : Q) (r : Rule) :
  Constructed s -> 0 <= crisp s t h r <= 3333 # 37.
Proof.
  intros Hs. destruct (firing_strength_range s t h r) as [_ H1].
  rewrite (crisp_call_fan s Hs).
  destruct (call_fan_hit s (snd r) (firing_strength s t h r) Hs)
    as (i & Hi & _ & ->).
  - assert (tau == 1 # 1000) by reflexivity. lra.
  - assert (Hk : (plateau_index (snd r) <= 891)%nat)
      by (destruct (snd r); cbn [plateau_index]; lia).
    split.
    + apply default_universe_nonneg. lia.
    + eapply Qle_trans; [apply (default_universe_mono i 891); lia|].
      rewrite nth_default_universe by lia. vm_compute. discriminate.
Qed.

Lemma evaluate_between (s : VentilationSystem) (t h : Q) :
  Constructed s -> 0 <= evaluate s t h <= 3333 # 37.
Proof.
  intros Hs. rewrite (evaluate_spec_evaluate s Hs t h). unfold spec_evaluate.
  destruct (Qeq_bool (spec_denominator s t h) 0) eqn:E.
  - split; vm_compute; discriminate.
  - apply Qeq_bool_neq in E.
    pose proof (spec_denominator_nonneg s t h) as Hd.
    assert (Hpos : 0 < spec_denominator s t h).
    { apply Qle_lteq in Hd. destruct Hd as [Hd|Hd]; [exact Hd|].
      exfalso. apply E. symmetry. exact Hd. }
    destruct (weighted_sum_bounds (firing_strength s t h) (crisp s t h)
                (3333 # 37) rule_table) as [Hn0 HnM].
    { intros r _. split.
      - apply firing_strength_range.
      - apply crisp_le_top, Hs. }
    split.
    + apply Qle_shift_div_l; [exact Hpos|].
      unfold spec_numerator. lra.
    + apply Qle_shift_div_r; [exact Hpos | exact HnM].
Qed.

(** X11. Inference alone never asks for more than [3333/37] (about 90.1), the
    first sample on the plateau of the [very_high] fan term; that value is
    reached, for instance at temperature 95 and humidity 95 on the default
    system. *)
Theorem evaluate_never_above_plateau_start :
  (forall (s : VentilationSystem) (t h : Q),
     Constructed s -> evaluate s t h <= 3333 # 37) /\
  evaluate default_system 95 95 == 3333 # 37.
Proof.
  split; [|vm_compute; reflexivity].
  intros s t h Hs. apply evaluate_between, Hs.
Qed.

Lemma evaluate_never_above_plateau_start_witness :
  evaluate default_system 100 100 <= 3333 # 37.
Proof.
  exact (proj1 evaluate_never_above_plateau_start default_system 100 100
           Constructed_default).
Defined.

(** ** The console loops *)

Lemma ask_some {A : Type} (read : Line -> option A) (stdin : Console)
    (v : A) (rest : Console) :
  ask read stdin = Some (v, rest) <->
  exists skipped line,
    stdin = skipped ++ line :: rest /\
    (forall l, In l skipped -> read l = None) /\
    read line = Some v.
Proof.
  split.
  - revert v rest. induction stdin as [|l stdin IH]; intros v rest H.
    + discriminate.
    + cbn [ask] in H. destruct (read l) as [w|] eqn:E.
      * injection H as <- <-. exists [], l. repeat split; [|exact E].
        intros l' [].
      * destruct (IH v rest H) as (skipped & line & -> & Hsk & Hline).
        exists (l :: skipped), line. repeat split; [|exact Hline].
        intros l' [<-|Hin]; [exact E | apply Hsk, Hin].
  - intros (skipped & line & -> & Hsk & Hline).
    induction skipped as [|l skipped IH]; cbn [app ask].
    + now rewrite Hline.
    + rewrite (Hsk l (or_introl eq_refl)).
      apply IH. intros l' Hin. apply Hsk. now right.
Qed.

Lemma ask_none {A : Type} (read : Line -> option A) (stdin : Console) :
  ask read stdin = None <-> forall l, In l stdin -> read l = None.
Proof.
  induction stdin as [|l stdin IH]; cbn [ask].
  - split; [intros _ l [] | reflexivity].
  - destruct (read l) as [w|] eqn:E.
    + split; [discriminate|]. intros H.
      specialize (H l (or_introl eq_refl)). congruence.
    + rewrite IH. split.
      * intros H l' [<-|Hin]; [exact E | apply H, Hin].
      * intros H l' Hin. apply H. now right.
Qed.

(** X12. The retry loop returns the value of the first line its reader accepts
    and leaves the lines after it; it never returns when the reader accepts no
    line of the input. *)
Theorem ask_takes_first_accepted {A : Type} (read : Line -> option A)
    (stdin : Console) :
  (forall v rest,
     ask read stdin = Some (v, rest) <->
     exists skipped line,
       stdin = skipped ++ line :: rest /\
       (forall l, In l skipped -> read l = None) /\
       read line = Some v) /\
  (ask read stdin = None <-> forall l, In l stdin -> read l = None).
Proof. split; [intros v rest; apply ask_some | apply ask_none]. Qed.

Lemma input_temp_some (s : VentilationSystem) (line : Line) (temp : Z) :
  input_temp s line = Some temp ->
  line = Ints [temp] /\ (x1 s <= temp <= x2 s)%Z.
Proof.
  unfold input_temp. destruct line as [|[|z [|z' zs]]|a' b' built];
    try discriminate.
  destruct ((x1 s <=? z)%Z && (z <=? x2 s)%Z) eqn:E; cbn [negb];
    [|discriminate].
  intros H. injection H as <-. apply andb_prop in E. destruct E as [E1 E2].
  apply Z.leb_le in E1, E2. split; [reflexivity | lia].
Qed.

Lemma input_hum_some (line : Line) (hum : Z) :
  input_hum line = Some hum -> line = Ints [hum] /\ (0 <= hum <= 100)%Z.
Proof.
  unfold input_hum. destruct line as [|[|z [|z' zs]]|a' b' built];
    try discriminate.
  destruct ((0 <=? z)%Z && (z <=? 100)%Z) eqn:E; cbn [negb]; [|discriminate].
  intros H. injection H as <-. apply andb_prop in E. destruct E as [E1 E2].
  apply Z.leb_le in E1, E2. split; [reflexivity | lia].
Qed.

(** X13. Whatever [input_values] returns has passed both checks: the
    temperature lies between the stored bounds, the humidity in [[0, 100]],
    each was a line holding that single integer, and the lines left over are a
    suffix of the input. *)
Theorem input_values_validated (s : VentilationSystem) (stdin rest : Console)
    (temp hum : Z) :
  input_values s stdin = Some (temp, hum, rest) ->
  (x1 s <= temp <= x2 s)%Z /\ (0 <= hum <= 100)%Z /\
  exists skipped skipped',
    stdin = skipped ++ Ints [temp] :: skipped' ++ Ints [hum] :: rest /\
    (forall l, In l skipped -> input_temp s l = None) /\
    (forall l, In l skipped' -> input_hum l = None).
Proof.
  unfold input_values. intros H.
  destruct (ask (input_temp s) stdin) as [[temp' rest1]|] eqn:E1;
    [|discriminate].
  destruct (ask input_hum rest1) as [[hum' rest2]|] eqn:E2; [|discriminate].
  injection H as -> -> ->.
  apply ask_some in E1. destruct E1 as (sk1 & l1 & -> & Hsk1 & Hl1).
  apply ask_some in E2. destruct E2 as (sk2 & l2 & -> & Hsk2 & Hl2).
  apply input_temp_some in Hl1. destruct Hl1 as [-> Ht].
  apply input_hum_some in Hl2. destruct Hl2 as [-> Hh].
  split; [exact Ht|]. split; [exact Hh|].
  exists sk1, sk2. repeat split; assumption.
Qed.

Lemma input_values_validated_witness :
  (x1 default_system <= 42 <= x2 default_system)%Z /\ (0 <= 55 <= 100)%Z.
Proof.
  destruct (input_values_validated default_system
              [Ints [500]; Garbage; Ints [42]; Ints [-1]; Ints [55]; Garbage]%Z
              [Garbage] 42 55 eq_refl) as (Ht & Hh & _).
  split; [exact Ht | exact Hh].
Defined.

(** X14. [input_temp_range] does not return exactly when no line of the input
    holds two integers. *)
Theorem input_temp_range_none_iff (s : VentilationSystem) (stdin : Console) :
  input_temp_range s stdin = None <->
  forallb (fun l => negb (is_range_line l)) stdin = true.
Proof.
  revert s. induction stdin as [|l stdin IH]; intros s;
    cbn [input_temp_range forallb].
  - split; reflexivity.
  - destruct l as [|[|z0 [|z1 [|z2 zs]]]|a' b' built];
      cbn [is_range_line negb andb]; try apply IH.
    split; discriminate.
Qed.

(** X15. The bounds are not compared: a range entered with its upper bound
    below its lower bound is accepted, after which no temperature can pass the
    check of [input_temp], and [run] never returns. *)
Theorem run_stuck_on_reversed_range (s : VentilationSystem)
    (skipped : list Line) (a b : Z) (rest : Console) :
  forallb (fun l => negb (is_range_line l)) skipped = true ->
  (b < a)%Z ->
  input_temp_range s (skipped ++ Ints [a; b] :: rest)
  = Some (set_temp_range s a b, rest) /\
  input_values (set_temp_range s a b) rest = None /\
  run s (skipped ++ Ints [a; b] :: rest) = None.
Proof.
  intros Hskip Hrev.
  pose proof (input_temp_range_skips s skipped a b rest Hskip) as Hr.
  assert (Hv : input_values (set_temp_range s a b) rest = None).
  { unfold input_values.
    assert (Hnone : ask (input_temp (set_temp_range s a b)) rest = None).
    { apply ask_none. intros l _.
      destruct (input_temp (set_temp_range s a b) l) as [t|] eqn:E;
        [|reflexivity].
      apply input_temp_some in E. destruct E as [_ E].
      cbn [set_temp_range set_default_mfs x1 x2] in E. lia. }
    now rewrite Hnone. }
  split; [exact Hr|]. split; [exact Hv|].
  unfold run. rewrite Hr, Hv. reflexivity.
Qed.

Lemma run_stuck_on_reversed_range_witness :
  run default_system [Garbage; Ints [30; -30]; Ints [0]; Ints [50]]%Z = None.
Proof.
  apply (run_stuck_on_reversed_range default_system [Garbage] 30 (-30)
           [Ints [0]; Ints [50]]%Z eq_refl).
  reflexivity.
Defined.

(** ** What a run leaves behind *)

Lemma input_values_spec (s : VentilationSystem) (stdin rest : Console)
    (temp hum : Z) :
  input_values s stdin = Some (temp, hum, rest) -> (x1 s <= x2 s)%Z.
Proof.
  unfold input_values. intros H.
  destruct (ask (input_temp s) stdin) as [[temp' rest1]|] eqn:E1;
    [|discriminate].
  apply ask_some in E1. destruct E1 as (_ & l & _ & _ & Hl).
  apply input_temp_some in Hl. lia.
Qed.

(** X16. When [run] returns on a constructed system, the system is again a
    constructed one, the entered bounds are in order, its humidity and fan
    sides are those it started with, and the reported value is either [100] or
    at most [3333/37]; in any case a number of [[0, 100]]. *)
Theorem run_reports_a_percentage (s s' : VentilationSystem)
    (stdin rest : Console) :
  Constructed s -> run s stdin = Some (s', rest) ->
  Constructed s' /\ (x1 s' <= x2 s')%Z /\
  humidity s' = humidity s /\ fan_speed s' = fan_speed s /\
  hum_mfs s' = hum_mfs s /\ fan_mfs s' = fan_mfs s /\ rules s' = rules s /\
  (res s' = 100 \/ res s' <= 3333 # 37) /\
  0 <= res s' <= 100.
Proof.
  intros Hs. unfold run. intros H.
  destruct (input_temp_range s stdin) as [[s1 rest1]|] eqn:E1; [|discriminate].
  destruct (input_values s1 rest1) as [[[temp hum] rest2]|] eqn:E2;
    [|discriminate].
  injection H as <- _.
  assert (Hs1 : exists a b, s1 = set_temp_range s a b).
  { clear E2 Hs. revert s E1.
    induction stdin as [|l stdin IH]; intros s; [discriminate|].
    cbn [input_temp_range].
    destruct l as [|[|z0 [|z1 [|z2 zs]]]|a' b' built]; try apply IH.
    - intros H. injection H as <- _. now exists z0, z1.
    - intros H. destruct (IH _ H) as (a & b & ->).
      exists a, b. apply set_temp_range_after_overflow. }
  destruct Hs1 as (a & b & ->).
  assert (Hc1 : Constructed (set_temp_range s a b))
    by (apply Constructed_range, Hs).
  destruct (Constructed_Wf s Hs) as [_ _ _ _ Hhm Hfm _].
  apply input_values_spec in E2.
  pose proof (evaluate_between (set_temp_range s a b) (inject_Z temp)
                (inject_Z hum) Hc1) as [He0 HeM].
  set (e := evaluate (set_temp_range s a b) (inject_Z temp) (inject_Z hum)) in *.
  unfold is_very_high.
  destruct (temp >=? _)%Z.
  - split; [repeat apply Constructed_res; exact Hc1|].
    split; [exact E2|].
    cbn [set_res set_temp_range set_default_mfs humidity fan_speed hum_mfs
         fan_mfs rules res].
    rewrite Hhm, Hfm. repeat (split; [reflexivity|]).
    split; [now left|]. split; vm_compute; discriminate.
  - split; [apply Constructed_res; exact Hc1|].
    split; [exact E2|].
    cbn [set_res set_temp_range set_default_mfs humidity fan_speed hum_mfs
         fan_mfs rules res].
    rewrite Hhm, Hfm. repeat (split; [reflexivity|]).
    split; [now right|]. split; [exact He0|].
    eapply Qle_trans; [exact HeM|]. vm_compute. discriminate.
Qed.

Lemma run_reports_a_percentage_witness :
  match run default_system [Ints [-10; 40]; Ints [25]; Ints [80]]%Z with
  | Some (s', _) => 0 <= res s' <= 100
  | None => False
  end.
Proof.
  destruct (run default_system [Ints [-10; 40]; Ints [25]; Ints [80]]%Z)
    as [[s' rest]|] eqn:E.
  - apply (run_reports_a_percentage default_system s' _ rest
             Constructed_default E).
  - vm_compute in E. discriminate E.
Defined.

(** ** No stale state *)

Lemma system_eq (s s' : VentilationSystem) :
  temp_range s = temp_range s' -> hum_range s = hum_range s' ->
  fan_range s = fan_range s' -> x1 s = x1 s' -> x2 s = x2 s' ->
  res s = res s' -> temperature s = temperature s' ->
  humidity s = humidity s' -> fan_speed s = fan_speed s' ->
  temp_mfs s = temp_mfs s' -> hum_mfs s = hum_mfs s' ->
  fan_mfs s = fan_mfs s' -> rules s = rules s' ->
  s = s'.
Proof.
  destruct s as [tr hr fr a b r ts hs fs tm hm fm rs].
  destruct s' as [tr' hr' fr' a' b' r' ts' hs' fs' tm' hm' fm' rs'].
  cbn [temp_range hum_range fan_range x1 x2 res temperature humidity
       fan_speed temp_mfs hum_mfs fan_mfs rules].
  intros; subst; reflexivity.
Qed.

Lemma Constructed_bounds (s : VentilationSystem) :
  Constructed s ->
  hum_range s = default_range /\ fan_range s = default_range /\
  x1 s = range_lo (temp_range s) /\ x2 s = (range_hi (temp_range s) - 1)%Z.
Proof.
  induction 1 as [tr | s a b Hs IH | s r Hs IH].
  - repeat split.
  - destruct IH as (Hh & Hf & _ & _).
    cbn [set_temp_range set_default_mfs hum_range fan_range x1 x2 temp_range
         range_lo range_hi fst snd].
    repeat split; try assumption. lia.
  - exact IH.
Qed.

(** X17. Every constructed system is the one the constructor builds for its
    current stored range, but for [res]: universes, membership parameters and
    rules hold nothing of earlier ranges, and [x1], [x2] are the stored
    bounds, the upper one less one. *)
Theorem constructed_is_fresh (s : VentilationSystem) :
  Constructed s ->
  s = set_res (init (temp_range s) default_range default_range) (res s).
Proof.
  intros Hs.
  destruct (Constructed_Wf s Hs) as [Hfs Hh Ht Htm Hhm Hfm Hr].
  destruct (Constructed_bounds s Hs) as (Hhr & Hfr & Hx1 & Hx2).
  apply system_eq;
    cbn [set_res init set_rules set_default_mfs temp_range hum_range fan_range
         x1 x2 res temperature humidity fan_speed temp_mfs hum_mfs fan_mfs
         rules];
    assumption || reflexivity.
Qed.

Lemma constructed_is_fresh_witness :
  Constructed (set_temp_range (set_temp_range default_system (-30) 30) 5 45) /\
  set_temp_range (set_temp_range default_system (-30) 30) 5 45
  = set_res
      (init (temp_range
               (set_temp_range (set_temp_range default_system (-30) 30) 5 45))
            default_range default_range)
      (res (set_temp_range (set_temp_range default_system (-30) 30) 5 45)).
Proof.
  assert (H : Constructed
                (set_temp_range (set_temp_range default_system (-30) 30) 5 45))
    by (apply Constructed_range, Constructed_range, Constructed_default).
  split; [exact H | exact (constructed_is_fresh _ H)].
Defined.

(** ** defuzz_single, descending *)

Lemma where_from_last {A : Type} (f : A -> bool) (d : A) (zs : list A)
    (k : nat) :
  where_from k (map f zs) <> [] ->
  exists n, last (where_from k (map f zs)) 0%nat = (k + n)%nat /\
    (n < length zs)%nat /\ f (nth n zs d) = true /\
    forall j, (n < j)%nat -> (j < length zs)%nat -> f (nth j zs d) = false.
Proof.
  revert k. induction zs as [|z zs IH]; intros k H; cbn [map where_from] in *.
  - contradiction.
  - destruct (where_from (S k) (map f zs)) as [|i tl] eqn:W.
    + destruct (f z) eqn:E; [|contradiction].
      exists 0%nat. cbn [last length nth]. repeat split; try lia; [exact E|].
      intros [|j] Hj Hlen; [lia|]. cbn [nth length] in *.
      apply (where_from_nil f d zs (S k) W). lia.
    + destruct (IH (S k)) as (n & Hlast & Hn & Hf & Hafter);
        [rewrite W; discriminate|].
      rewrite W in Hlast. exists (S n).
      assert (Hl : last (if f z then k :: i :: tl else i :: tl) 0%nat
                   = (k + S n)%nat).
      { destruct (f z); cbn [last]; cbn [last] in Hlast; rewrite Hlast; lia. }
      repeat split; [exact Hl | cbn [length]; lia | exact Hf |].
      intros [|j] Hj Hlen; [lia|]. cbn [nth length] in *.
      apply Hafter; lia.
Qed.

(** X18. With [ascending=False] the function returns the last sample whose
    membership is at least [mu - 1e-3], and the mean of the samples when there
    is none; on a constructed system this is never below what the ascending
    search returns. *)
Theorem defuzz_single_descending (s : VentilationSystem) (mu : Q) (p : Params) :
  let zs := fan_speed s in
  ((exists i, (i < length zs)%nat /\
      mu - tau <= trapmf_p (nth i zs 0) p /\
      (forall j, (i < j)%nat -> (j < length zs)%nat ->
         ~ mu - tau <= trapmf_p (nth j zs 0) p) /\
      defuzz_single s mu p false = nth i zs 0)
   \/
   ((forall j, (j < length zs)%nat -> ~ mu - tau <= trapmf_p (nth j zs 0) p) /\
    defuzz_single s mu p false = np_mean zs /\
    defuzz_single s mu p true = np_mean zs)) /\
  (Constructed s -> defuzz_single s mu p true <= defuzz_single s mu p false).
Proof.
  intros zs.
  assert (Hdesc :
    (exists i, (i < length zs)%nat /\
       mu - tau <= trapmf_p (nth i zs 0) p /\
       (forall j, (i < j)%nat -> (j < length zs)%nat ->
          ~ mu - tau <= trapmf_p (nth j zs 0) p) /\
       defuzz_single s mu p false = nth i zs 0)
    \/
    ((forall j, (j < length zs)%nat -> ~ mu - tau <= trapmf_p (nth j zs 0) p) /\
     defuzz_single s mu p false = np_mean zs /\
     defuzz_single s mu p true = np_mean zs)).
  { unfold defuzz_single. fold zs. rewrite ge_mask_map. unfold np_where.
    destruct (where_from 0 _) as [|i tl] eqn:W.
    - right. cbn [length Nat.eqb]. split; [|split; reflexivity].
      intros j Hj Hle. apply Qle_bool_iff in Hle.
      now rewrite (where_from_nil _ 0 zs 0%nat W j Hj) in Hle.
    - left.
      destruct (where_from_last
                  (fun z => Qle_bool (mu - tau) (trapmf_p z p)) 0 zs 0%nat)
        as (n & Hlast & Hn & Hf & Hafter); [rewrite W; discriminate|].
      rewrite W in Hlast. cbn [length Nat.eqb]. rewrite Hlast.
      exists n. cbn [Nat.add]. repeat split.
      + exact Hn.
      + now apply Qle_bool_iff.
      + intros j Hj Hlen Hle. apply Qle_bool_iff in Hle.
        now rewrite (Hafter j Hj Hlen) in Hle. }
  split; [exact Hdesc|].
  intros Hs. pose proof (Constructed_fan_speed s Hs) as Hz. fold zs in Hz.
  destruct Hdesc as [(i & Hi & Hge & _ & ->) | (_ & -> & ->)]; [|lra].
  destruct (defuzz_single_hit s mu p i Hi Hge) as (i0 & Hi0 & _ & ->).
  fold zs. rewrite Hz in *. rewrite default_universe_length in Hi.
  apply default_universe_mono; lia.
Qed.

Lemma defuzz_single_descending_witness :
  defuzz_single default_system (1 # 2) (lookup fan_table medium) true
  <= defuzz_single default_system (1 # 2) (lookup fan_table medium) false.
Proof.
  apply (defuzz_single_descending default_system (1 # 2)
           (lookup fan_table medium)).
  exact Constructed_default.
Defined.

(** ** Integer widths and the truncated bound *)

(** C4.  Within the [int64]-safe bounds (stored bounds, outer integer edges
    and inputs within [2^61] of zero, which holds for every stored range
    within 38000 of zero with inputs in the validated ranges), [evaluate]
    returns a number of [[0, 100]] on every constructed system.  Beyond
    them the program leaves 64 bits: for a stored upper bound of 55109 the
    edge [min - max^4] of [very_low] no longer fits an [int64]. *)
Theorem evaluate_range_in_int64 (s : VentilationSystem) (t h : Q) :
  Constructed s -> int64_safe s t h ->
  0 <= evaluate s t h <= 100 /\
  (- 2 ^ 63 <= 0 - 55108 ^ 4 /\ 0 - 55109 ^ 4 < - 2 ^ 63)%Z.
Proof.
  intros Hs _. split.
  - destruct (evaluate_between s t h Hs) as [H0 HM].
    split; [exact H0|]. eapply Qle_trans; [exact HM|].
    vm_compute. discriminate.
  - split; vm_compute; [discriminate | reflexivity].
Qed.

Lemma evaluate_range_in_int64_witness :
  int64_safe default_system 1000 (-7) /\
  0 <= evaluate default_system 1000 (-7) <= 100.
Proof.
  assert (Hsafe : int64_safe default_system 1000 (-7))
    by (unfold int64_safe; cbv zeta; repeat split; vm_compute; discriminate).
  split; [exact Hsafe|].
  apply (evaluate_range_in_int64 default_system 1000 (-7)
           Constructed_default Hsafe).
Defined.

(** C8.  With the bounds [-30 -10] entered, the temperature [-12] is at
    [min + 0.9 * (max - min) = -12] and passes the check of [input_temp],
    but the bound the program compares with is [int(-11.1) = -11],
    truncated toward zero: the inferred value [535300/6993] (about 76.5) is
    reported, not [100]. *)
Lemma is_very_high_negative_bound :
  exists s',
    run default_system [Ints [-30; -10]; Ints [-12]; Ints [50]]%Z
    = Some (s', []) /\
    (x1 s' = -30 /\ x2 s' = -10)%Z /\
    inject_Z (-30) + (9 # 10) * (inject_Z (-10) - inject_Z (-30))
      <= inject_Z (-12) /\
    very_high_bound s' = (-11)%Z /\
    res s' == 535300 # 6993 /\
    ~ res s' == 100.
Proof.
  eexists. split; [reflexivity|].
  split; [split; reflexivity|].
  split; [vm_compute; discriminate|].
  split; [vm_compute; reflexivity|].
  split; [vm_compute; reflexivity | vm_compute; discriminate].
Qed.

(** Where the bound is not negative the truncation is harmless: for entered
    bounds [a], [b] with [0 <= a + 9 * b], an integer temperature reaches
    the bound of the program exactly when it is at or above
    [a + 0.9 * (b - a)]. *)
Lemma is_very_high_agrees_when_nonneg (s : VentilationSystem) (a b temp : Z) :
  (0 <= a + 9 * b)%Z ->
  (very_high_bound (set_temp_range s a b) <= temp)%Z <->
  inject_Z a + (9 # 10) * (inject_Z b - inject_Z a) <= inject_Z temp.
Proof.
  intros Hnn.
  assert (Hb : very_high_bound (set_temp_range s a b)
               = ((a + 9 * b + 9) / 10)%Z).
  { unfold very_high_bound.
    cbn [set_temp_range set_default_mfs temp_range range_lo range_hi fst snd].
    unfold py_int.
    cbn [Qnum Qden Qplus Qmult inject_Z].
    rewrite Z.quot_div_nonneg by lia.
    f_equal; lia. }
  rewrite Hb. unfold Qle.
  cbn [Qnum Qden Qplus Qminus Qopp Qmult inject_Z Pos.mul].
  Z.div_mod_to_equations. lia.
Qed.
